(** * react-eventsource-hook: the [useEventSource] hook as a state machine

    A shallow embedding of the hook with retry backoff, pause on hidden and
    the close/reconnect controls.  One hook instance is a record of the
    React state cells and refs of the component, together with the part of
    the environment the hook talks to: the abort controllers and transport
    attempts it created, the timers it scheduled and the observer calls it
    made.  Every callback of the source is a function on that record. *)

From Stdlib Require Import ZArith Lia.
From stdpp Require Import gmap strings list.

Open Scope string_scope.
Open Scope list_scope.

(** ** Data *)

(** [readyState: 0 | 1 | 2]. *)
Inductive ReadyState := CONNECTING | OPEN | CLOSED.

Definition readyState_code (r : ReadyState) : Z :=
  match r with CONNECTING => 0 | OPEN => 1 | CLOSED => 2 end%Z.

(** A decoded message; the identifier may be absent ([message.id ?? ""]). *)
Record EventSourceMessage := {
  msg_id : option string;
  msg_event : string;
  msg_data : string;
}.

(** The response handed to [onopen] and the value handed to [onerror] are
    opaque to the hook: a response is named by a number, an error by its
    text. *)
Definition Response := nat.
Definition ErrorValue := string.

(** [RequestInit]: the object identity (what a dependency list compares),
    its [credentials] and the entries of [new Headers(init.headers ?? {})]. *)
Record RequestInit := {
  ri_ref : nat;
  ri_credentials : option string;
  ri_headers : gmap string string;
}.

(** [UseEventSourceOptions], under the names the hook destructures them to.
    An observer is modelled by whether it was supplied; [customFetch] by the
    identity of the function. *)
Record UseEventSourceOptions := {
  url : string;
  withCredentials : bool;
  init : option RequestInit;
  customFetch : option nat;
  retryIntervalMs : option Z;
  maxRetryIntervalMs : option Z;
  pauseOnHidden : bool;
  onOpen : bool;
  onMessage : bool;
  onError : bool;
  onClose : bool;
}.

(** What a [start] closure captured from the render that created it: the
    options and the [lastEventId] state of that render. *)
Record StartEnv := {
  cl_options : UseEventSourceOptions;
  cl_lastEventId : string;
}.

(** The arguments of one [fetchEventSource] call. *)
Record Request := {
  req_url : string;
  req_credentials : option string;
  req_headers : gmap string string;
  req_signal : nat;
  req_fetch : option nat;
}.

(** One [start()] call creates one [AbortController] and one transport
    attempt; both are named by the attempt's index.  [aborted] is
    [controller.signal.aborted]; [stopped] records that a callback of the
    attempt threw, which ends the transport operation. *)
Record Attempt := {
  at_request : Request;
  at_env : StartEnv;
  aborted : bool;
  stopped : bool;
}.

(** JavaScript numbers as far as the delay needs them.  The intervals of
    the options are millisecond counts, integer-valued doubles: [Fin z]
    stands for the double of value [z].  [Infinity] is the default of the
    cap and, with [NegInfinity], the result of an overflow; [NaN] is the
    product of 0 and [Infinity]. *)
Inductive Num := Fin (z : Z) | Infinity | NegInfinity | NaN.

(** A pending [setTimeout] callback: its delay, the controller and the
    [start] it closes over. *)
Record Timer := {
  tm_delay : Num;
  tm_controller : nat;
  tm_start : StartEnv;
}.

(** Calls made to the caller-supplied observers. *)
Inductive Observed :=
| ObsOpen (r : Response)
| ObsMessage (m : EventSourceMessage)
| ObsError (e : ErrorValue)
| ObsClose.

(** How a callback returns to the transport. *)
Inductive Completion := Returned | Threw (e : ErrorValue).

(** The hook instance. *)
Record Hook := {
  readyState : ReadyState;
  lastEventId : string;
  error : option ErrorValue;
  events : list EventSourceMessage;
  controllerRef : option nat;
  retryCountRef : nat;
  props : UseEventSourceOptions;
  startMemo : StartEnv;
  attempts : list Attempt;
  timers : list Timer;
  observed : list Observed;
}.

(** ** Field updates *)

Definition setReadyState (v : ReadyState) (s : Hook) : Hook :=
  {| readyState := v; lastEventId := lastEventId s; error := error s;
     events := events s; controllerRef := controllerRef s;
     retryCountRef := retryCountRef s; props := props s;
     startMemo := startMemo s; attempts := attempts s; timers := timers s;
     observed := observed s |}.

Definition setLastEventId (v : string) (s : Hook) : Hook :=
  {| readyState := readyState s; lastEventId := v; error := error s;
     events := events s; controllerRef := controllerRef s;
     retryCountRef := retryCountRef s; props := props s;
     startMemo := startMemo s; attempts := attempts s; timers := timers s;
     observed := observed s |}.

Definition setError (v : option ErrorValue) (s : Hook) : Hook :=
  {| readyState := readyState s; lastEventId := lastEventId s; error := v;
     events := events s; controllerRef := controllerRef s;
     retryCountRef := retryCountRef s; props := props s;
     startMemo := startMemo s; attempts := attempts s; timers := timers s;
     observed := observed s |}.

Definition setEvents (f : list EventSourceMessage -> list EventSourceMessage)
    (s : Hook) : Hook :=
  {| readyState := readyState s; lastEventId := lastEventId s; error := error s;
     events := f (events s); controllerRef := controllerRef s;
     retryCountRef := retryCountRef s; props := props s;
     startMemo := startMemo s; attempts := attempts s; timers := timers s;
     observed := observed s |}.

Definition set_controllerRef (v : option nat) (s : Hook) : Hook :=
  {| readyState := readyState s; lastEventId := lastEventId s; error := error s;
     events := events s; controllerRef := v;
     retryCountRef := retryCountRef s; props := props s;
     startMemo := startMemo s; attempts := attempts s; timers := timers s;
     observed := observed s |}.

Definition set_retryCountRef (v : nat) (s : Hook) : Hook :=
  {| readyState := readyState s; lastEventId := lastEventId s; error := error s;
     events := events s; controllerRef := controllerRef s;
     retryCountRef := v; props := props s;
     startMemo := startMemo s; attempts := attempts s; timers := timers s;
     observed := observed s |}.

Definition set_props (v : UseEventSourceOptions) (s : Hook) : Hook :=
  {| readyState := readyState s; lastEventId := lastEventId s; error := error s;
     events := events s; controllerRef := controllerRef s;
     retryCountRef := retryCountRef s; props := v;
     startMemo := startMemo s; attempts := attempts s; timers := timers s;
     observed := observed s |}.

Definition set_startMemo (v : StartEnv) (s : Hook) : Hook :=
  {| readyState := readyState s; lastEventId := lastEventId s; error := error s;
     events := events s; controllerRef := controllerRef s;
     retryCountRef := retryCountRef s; props := props s;
     startMemo := v; attempts := attempts s; timers := timers s;
     observed := observed s |}.

Definition set_attempts (v : list Attempt) (s : Hook) : Hook :=
  {| readyState := readyState s; lastEventId := lastEventId s; error := error s;
     events := events s; controllerRef := controllerRef s;
     retryCountRef := retryCountRef s; props := props s;
     startMemo := startMemo s; attempts := v; timers := timers s;
     observed := observed s |}.

Definition set_timers (v : list Timer) (s : Hook) : Hook :=
  {| readyState := readyState s; lastEventId := lastEventId s; error := error s;
     events := events s; controllerRef := controllerRef s;
     retryCountRef := retryCountRef s; props := props s;
     startMemo := startMemo s; attempts := attempts s; timers := v;
     observed := observed s |}.

(** [ref.current?.(x)]: the observer is called when one was supplied. *)
Definition observe (supplied : bool) (call : Observed) (s : Hook) : Hook :=
  {| readyState := readyState s; lastEventId := lastEventId s; error := error s;
     events := events s; controllerRef := controllerRef s;
     retryCountRef := retryCountRef s; props := props s;
     startMemo := startMemo s; attempts := attempts s; timers := timers s;
     observed := if supplied then observed s ++ [call] else observed s |}.

(** ** Abort controllers *)

Definition abort_attempt (a : Attempt) : Attempt :=
  {| at_request := at_request a; at_env := at_env a; aborted := true;
     stopped := stopped a |}.

Definition stop_attempt (a : Attempt) : Attempt :=
  {| at_request := at_request a; at_env := at_env a; aborted := aborted a;
     stopped := true |}.

(** [controllerRef.current?.abort()] *)
Definition abort_current (s : Hook) : Hook :=
  match controllerRef s with
  | Some c => set_attempts (alter abort_attempt c (attempts s)) s
  | None => s
  end.

(** [controller.signal.aborted] *)
Definition signal_aborted (c : nat) (s : Hook) : bool :=
  match attempts s !! c with
  | Some a => aborted a
  | None => false
  end.

(** ** [start] *)

(** Truthiness of a string: [if (lastEventId)]. *)
Definition truthy (x : string) : bool :=
  match x with EmptyString => false | String _ _ => true end.

Definition option_truthy (x : option string) : bool :=
  match x with Some v => truthy v | None => false end.

(** [requestInit.credentials] after the [withCredentials] default. *)
Definition request_credentials (o : UseEventSourceOptions) : option string :=
  let credentials := init o ≫= ri_credentials in
  if withCredentials o && negb (option_truthy credentials)
  then Some "include"
  else credentials.

(** [headersRecord]: the entries of the existing headers, then
    [Last-Event-ID] when the captured [lastEventId] is truthy. *)
Definition headersRecord (env : StartEnv) : gmap string string :=
  let existing := from_option ri_headers ∅ (init (cl_options env)) in
  if truthy (cl_lastEventId env)
  then <["Last-Event-ID" := cl_lastEventId env]> existing
  else existing.

Definition build_request (env : StartEnv) (controller : nat) : Request :=
  {| req_url := url (cl_options env);
     req_credentials := request_credentials (cl_options env);
     req_headers := headersRecord env;
     req_signal := controller;
     req_fetch := customFetch (cl_options env) |}.

Definition start (env : StartEnv) (s : Hook) : Hook :=
  let s := abort_current s in
  let controller := length (attempts s) in
  let s := set_controllerRef (Some controller) s in
  let s := setReadyState CONNECTING s in
  set_attempts
    (attempts s ++
       [{| at_request := build_request env controller; at_env := env;
           aborted := false; stopped := false |}]) s.

(** ** Transport callbacks *)

Definition onopen (response : Response) (s : Hook) : Hook :=
  let s := setReadyState OPEN s in
  let s := set_retryCountRef 0 s in
  observe (onOpen (props s)) (ObsOpen response) s.

Definition onmessage (message : EventSourceMessage) (s : Hook) : Hook :=
  let s := setLastEventId (default "" (msg_id message)) s in
  let s := setEvents (fun prev => prev ++ [message]) s in
  observe (onMessage (props s)) (ObsMessage message) s.

(** [Math.min]: [NaN] when an argument is [NaN], else the smaller one. *)
Definition Math_min (a b : Num) : Num :=
  match a, b with
  | NaN, _ | _, NaN => NaN
  | NegInfinity, _ | _, NegInfinity => NegInfinity
  | Fin x, Fin y => Fin (Z.min x y)
  | Fin x, Infinity => Fin x
  | Infinity, b => b
  end.

(** [retryIntervalMs * 2 ** retryCount] in double arithmetic.  [2 ** n] is
    2ⁿ up to n = 1023 and [Infinity] from n = 1024 on.  Scaling a double by
    a power of two keeps its significand, so the product is exact as long
    as its magnitude stays below 2¹⁰²⁴; from there on it overflows to
    [Infinity] with the sign of the interval.  A zero interval gives 0 while
    [2 ** n] is finite and [NaN] (0 times [Infinity]) afterwards. *)
Definition scaled_interval (retryIntervalMs : Z) (retryCount : nat) : Num :=
  if (retryIntervalMs =? 0)%Z then
    if (retryCount <=? 1023)%nat then Fin 0 else NaN
  else if (Z.abs retryIntervalMs * 2 ^ Z.of_nat retryCount <? 2 ^ 1024)%Z then
    Fin (retryIntervalMs * 2 ^ Z.of_nat retryCount)
  else if (0 <? retryIntervalMs)%Z then Infinity
  else NegInfinity.

(** [Math.min(retryIntervalMs * 2 ** retryCount, maxRetryIntervalMs ?? Infinity)] *)
Definition delay (retryIntervalMs : Z) (maxRetryIntervalMs : option Z)
    (retryCount : nat) : Num :=
  Math_min (scaled_interval retryIntervalMs retryCount)
           (from_option Fin Infinity maxRetryIntervalMs).

Definition onerror (env : StartEnv) (controller : nat) (err : ErrorValue)
    (s : Hook) : Hook * Completion :=
  let s := setError (Some err) s in
  let s := observe (onError (props s)) (ObsError err) s in
  let s := setReadyState CLOSED s in
  match retryIntervalMs (cl_options env) with
  | Some base =>
      let d := delay base (maxRetryIntervalMs (cl_options env)) (retryCountRef s) in
      let s := set_retryCountRef (retryCountRef s + 1) s in
      (set_timers
         (timers s ++
            [{| tm_delay := d; tm_controller := controller; tm_start := env |}]) s,
       Returned)
  | None => (s, Threw err)
  end.

Definition onclose (s : Hook) : Hook :=
  let s := setReadyState CLOSED s in
  observe (onClose (props s)) ObsClose s.

(** ** Controls *)

Definition close (s : Hook) : Hook :=
  setReadyState CLOSED (abort_current s).

Definition reconnect (s : Hook) : Hook := start (startMemo s) s.

(** The [visibilitychange] handler; it is registered only under
    [pauseOnHidden]. *)
Definition visibility_handler (hidden : bool) (s : Hook) : Hook :=
  if pauseOnHidden (props s)
  then if hidden then abort_current s else start (startMemo s) s
  else s.

(** The timer callback: [if (!controller.signal.aborted) start()]. *)
Definition timer_callback (t : Timer) (s : Hook) : Hook :=
  if signal_aborted (tm_controller t) s then s else start (tm_start t) s.

(** ** Rendering *)

(** The dependency list of [useCallback] for [start]; objects and functions
    compare by identity. *)
Definition start_deps (o : UseEventSourceOptions) :=
  (url o, ri_ref <$> init o, customFetch o, withCredentials o,
   retryIntervalMs o, maxRetryIntervalMs o).

(** A render with options [o]: the observer refs and the visibility listener
    follow the new options; when a dependency of [start] changed, a new
    [start] closes over this render's [lastEventId], and the effect on
    [start] aborts the current controller and starts again. *)
Definition render (o : UseEventSourceOptions) (s : Hook) : Hook :=
  let s := set_props o s in
  if bool_decide (start_deps (cl_options (startMemo s)) = start_deps o)
  then s
  else
    let env := {| cl_options := o; cl_lastEventId := lastEventId s |} in
    start env (abort_current (set_startMemo env s)).

(** The first render and its effects. *)
Definition mount (o : UseEventSourceOptions) : Hook :=
  let env := {| cl_options := o; cl_lastEventId := "" |} in
  start env
    {| readyState := CONNECTING; lastEventId := ""; error := None;
       events := []; controllerRef := None; retryCountRef := 0; props := o;
       startMemo := env; attempts := []; timers := []; observed := [] |}.

(** ** Events *)

Inductive Event :=
| TransportOpen (c : nat) (response : Response)
| TransportMessage (c : nat) (message : EventSourceMessage)
| TransportError (c : nat) (err : ErrorValue)
| TransportClose (c : nat)
| TimerFires (i : nat)
| VisibilityChange (hidden : bool)
| CallClose
| CallReconnect
| Render (o : UseEventSourceOptions).

(** The error callback of attempt [c], run by the transport: a throw stops
    the operation. *)
Definition transport_error (c : nat) (err : ErrorValue) (s : Hook) : Hook :=
  match attempts s !! c with
  | Some a =>
      match onerror (at_env a) c err s with
      | (s, Returned) => s
      | (s, Threw _) => set_attempts (alter stop_attempt c (attempts s)) s
      end
  | None => s
  end.

Definition handle (e : Event) (s : Hook) : Hook :=
  match e with
  | TransportOpen _ response => onopen response s
  | TransportMessage _ message => onmessage message s
  | TransportError c err => transport_error c err s
  | TransportClose _ => onclose s
  | TimerFires i =>
      match timers s !! i with
      | Some t => timer_callback t (set_timers (delete i (timers s)) s)
      | None => s
      end
  | VisibilityChange hidden => visibility_handler hidden s
  | CallClose => close s
  | CallReconnect => reconnect s
  | Render o => render o s
  end.

(** The transport calls back only for an attempt that it was asked to make,
    whose signal is not aborted and that no throw has stopped. *)
Definition live (c : nat) (s : Hook) : bool :=
  match attempts s !! c with
  | Some a => negb (aborted a) && negb (stopped a)
  | None => false
  end.

Definition enabled (e : Event) (s : Hook) : bool :=
  match e with
  | TransportOpen c _ | TransportMessage c _ | TransportError c _
  | TransportClose c => live c s
  | TimerFires i => bool_decide (i < length (timers s))
  | _ => true
  end.

(** Whether handling [e] calls [start] on behalf of the caller or of the
    page, as opposed to a scheduled retry. *)
Definition invokes_start (e : Event) (s : Hook) : bool :=
  match e with
  | CallReconnect => true
  | VisibilityChange hidden => pauseOnHidden (props s) && negb hidden
  | Render o =>
      negb (bool_decide (start_deps (cl_options (startMemo s)) = start_deps o))
  | _ => false
  end.

(** Runs of the machine: every event is enabled where it happens and
    satisfies [P]. *)
Inductive steps (P : Event -> Hook -> bool) : Hook -> list Event -> Hook -> Prop :=
| steps_nil s : steps P s [] s
| steps_cons s e es s' :
    enabled e s = true -> P e s = true ->
    steps P (handle e s) es s' -> steps P s (e :: es) s'.

Definition any_event (_ : Event) (_ : Hook) : bool := true.
Definition quiet (e : Event) (s : Hook) : bool := negb (invokes_start e s).

Definition reachable (s : Hook) : Prop :=
  exists o es, steps any_event (mount o) es s.

(** Executable runs, for concrete traces. *)
Fixpoint run_if (P : Event -> Hook -> bool) (es : list Event) (s : Hook)
    : option Hook :=
  match es with
  | [] => Some s
  | e :: es => if enabled e s && P e s then run_if P es (handle e s) else None
  end.

Definition run : list Event -> Hook -> option Hook := run_if any_event.

(** ** Measures on traces and predicates on states *)

(** The value of the last transport error of a trace, if it has one. *)
Fixpoint last_error (es : list Event) : option ErrorValue :=
  match es with
  | [] => None
  | TransportError _ err :: es =>
      match last_error es with Some e => Some e | None => Some err end
  | _ :: es => last_error es
  end.


(** Events that leave the dependencies of [start] as options [o] has them. *)
Definition keeps_deps (o : UseEventSourceOptions) (e : Event) (_ : Hook) : bool :=
  match e with
  | Render o' => bool_decide (start_deps o' = start_deps o)
  | _ => true
  end.




(** The delay of the spec: min(base × 2ⁿ, cap), the cap absent meaning
    +infinity. *)
Definition spec_delay (base : Z) (cap : option Z) (n : nat) : Z :=
  match cap with
  | Some c => Z.min (base * 2 ^ Z.of_nat n) c
  | None => base * 2 ^ Z.of_nat n
  end.

(** The delay [d] that the error after [n] errors schedules, case by case:
    min(base × 2ⁿ, cap) while the product is in the range of a double;
    beyond it the cap, or [Infinity] without one, for a positive base and
    [NegInfinity] for a negative one; [NaN] for base 0 once 2ⁿ is out of
    range.  With a positive base and a cap (a double, so below 2¹⁰²⁴) this is
    min(base × 2ⁿ, cap) for every [n]. *)
Definition backoff_delay_spec (base : Z) (cap : option Z) (n : nat) (d : Num)
    : Prop :=
  ((Z.abs base * 2 ^ Z.of_nat n < 2 ^ 1024)%Z -> (base = 0%Z -> n <= 1023) ->
     d = Fin (spec_delay base cap n)) /\
  ((0 < base)%Z -> (2 ^ 1024 <= base * 2 ^ Z.of_nat n)%Z ->
     d = from_option Fin Infinity cap) /\
  ((base < 0)%Z -> (2 ^ 1024 <= - base * 2 ^ Z.of_nat n)%Z ->
     d = NegInfinity) /\
  (base = 0%Z -> 1024 <= n -> d = NaN) /\
  ((0 < base)%Z -> forall c, cap = Some c -> (c < 2 ^ 1024)%Z ->
     d = Fin (Z.min (base * 2 ^ Z.of_nat n) c)).

(** No attempt can call back, and no pending timer can start one. *)
Definition inert (s : Hook) : Prop :=
  (forall c, live c s = false) /\
  (forall t, t ∈ timers s -> signal_aborted (tm_controller t) s = true).

(** The invariant of the cancel-then-replace discipline: an attempt whose
    signal is not aborted is the current one; the current controller exists;
    a pending timer belongs to an existing attempt that has a retry policy. *)
Definition Inv (s : Hook) : Prop :=
  (forall c a, attempts s !! c = Some a -> aborted a = false ->
               controllerRef s = Some c) /\
  (forall c, controllerRef s = Some c -> c < length (attempts s)) /\
  (forall t, t ∈ timers s ->
     exists a, attempts s !! tm_controller t = Some a /\
               is_Some (retryIntervalMs (cl_options (at_env a)))).

(** A [start] closure made with the dependencies of [o] in a render whose
    [lastEventId] was [id]. *)
Definition made_with (o : UseEventSourceOptions) (id : string)
    (env : StartEnv) : Prop :=
  start_deps (cl_options env) = start_deps o /\ cl_lastEventId env = id.

(** Every [start] closure in the state (the memoised one, those of the
    attempts, those of the timers) is such a closure. *)
Definition DepsInv (o : UseEventSourceOptions) (id : string) (s : Hook) : Prop :=
  made_with o id (startMemo s) /\
  Forall (fun a => made_with o id (at_env a)) (attempts s) /\
  Forall (fun t => made_with o id (tm_start t)) (timers s).

(** The attempt whose callback a transport event is. *)
Definition event_attempt (e : Event) : option nat :=
  match e with
  | TransportOpen c _ | TransportMessage c _ | TransportError c _
  | TransportClose c => Some c
  | _ => None
  end.

(** Attempts are only ever added, aborted or stopped. *)
Definition grows (l l' : list Attempt) : Prop :=
  forall c a, l !! c = Some a ->
    exists a', l' !! c = Some a' /\ at_env a' = at_env a /\
               (aborted a = true -> aborted a' = true) /\
               (stopped a = true -> stopped a' = true).

(** Handling a trace without asking whether its events are enabled. *)
Definition exec (es : list Event) (s : Hook) : Hook :=
  fold_left (fun s e => handle e s) es s.

(** ** Sample inputs *)

Definition opts_retry : UseEventSourceOptions :=
  {| url := "/api/updates"; withCredentials := false; init := None;
     customFetch := None; retryIntervalMs := Some 1000%Z;
     maxRetryIntervalMs := Some 30000%Z; pauseOnHidden := true;
     onOpen := true; onMessage := true; onError := true; onClose := true |}.



Definition opts_noretry : UseEventSourceOptions :=
  {| url := "/api/time-stream"; withCredentials := false; init := None;
     customFetch := None; retryIntervalMs := None;
     maxRetryIntervalMs := None; pauseOnHidden := true;
     onOpen := true; onMessage := true; onError := true; onClose := true |}.

Definition msg_with_id : EventSourceMessage :=
  {| msg_id := Some "42"; msg_event := "message"; msg_data := "tick" |}.

Definition msg_without_id : EventSourceMessage :=
  {| msg_id := None; msg_event := "message"; msg_data := "tock" |}.

Definition msg_empty_id : EventSourceMessage :=
  {| msg_id := Some ""; msg_event := "message"; msg_data := "tack" |}.



(** A failed first attempt whose retry timer is pending. *)
Definition retry_pending : Hook :=
  exec [TransportError 0 "offline"] (mount opts_retry).

(** An open connection. *)
Definition connected : Hook :=
  exec [TransportOpen 0 200] (mount opts_retry).

(** ** Further measures and operations *)

(** The messages a trace delivers, in order. *)
Fixpoint messages_of (es : list Event) : list EventSourceMessage :=
  match es with
  | [] => []
  | TransportMessage _ m :: es => m :: messages_of es
  | _ :: es => messages_of es
  end.

(** The observer call an event makes under options [o]. *)
Definition observer_call (o : UseEventSourceOptions) (e : Event)
    : list Observed :=
  match e with
  | TransportOpen _ r => if onOpen o then [ObsOpen r] else []
  | TransportMessage _ m => if onMessage o then [ObsMessage m] else []
  | TransportError _ err => if onError o then [ObsError err] else []
  | TransportClose _ => if onClose o then [ObsClose] else []
  | _ => []
  end.

(** The options the observer refs hold after an event. *)
Definition props_after (o : UseEventSourceOptions) (e : Event)
    : UseEventSourceOptions :=
  match e with Render o' => o' | _ => o end.

Fixpoint observer_calls (o : UseEventSourceOptions) (es : list Event)
    : list Observed :=
  match es with
  | [] => []
  | e :: es => observer_call o e ++ observer_calls (props_after o e) es
  end.


Fixpoint timers_fired (es : list Event) : nat :=
  match es with
  | [] => 0
  | TimerFires _ :: es => S (timers_fired es)
  | _ :: es => timers_fired es
  end.

(** The cleanup of the start effect when the component unmounts:
    [controllerRef.current?.abort()].  The cleanup of the visibility effect
    removes the listener, and the controls are out of reach: the events left
    are those of the transport and of the timers. *)
Definition unmount (s : Hook) : Hook := abort_current s.

Definition detached (e : Event) (_ : Hook) : bool :=
  match e with
  | TransportOpen _ _ | TransportMessage _ _ | TransportError _ _
  | TransportClose _ | TimerFires _ => true
  | _ => false
  end.

(** Order on delays; [NaN] compares with nothing. *)
Definition Num_le (a b : Num) : Prop :=
  match a, b with
  | NaN, _ | _, NaN => False
  | NegInfinity, _ => True
  | _, Infinity => True
  | Fin x, Fin y => (x <= y)%Z
  | _, _ => False
  end.

(** The existing headers of a closure's [init]. *)
Definition existing_headers (env : StartEnv) : gmap string string :=
  from_option ri_headers ∅ (init (cl_options env)).

(** Options with headers and credentials of their own. *)
Definition opts_init : UseEventSourceOptions :=
  {| url := "/api/stream"; withCredentials := true;
     init := Some {| ri_ref := 1; ri_credentials := Some "same-origin";
                     ri_headers := {[ "x-auth-token" := "abc123" ]} |};
     customFetch := None; retryIntervalMs := Some 1000%Z;
     maxRetryIntervalMs := None; pauseOnHidden := false;
     onOpen := false; onMessage := true; onError := false; onClose := false |}.

(** The same request options without observers and with pause on hidden. *)
Definition opts_init_quiet : UseEventSourceOptions :=
  {| url := "/api/stream"; withCredentials := true;
     init := Some {| ri_ref := 1; ri_credentials := Some "same-origin";
                     ri_headers := {[ "x-auth-token" := "abc123" ]} |};
     customFetch := None; retryIntervalMs := Some 1000%Z;
     maxRetryIntervalMs := None; pauseOnHidden := true;
     onOpen := false; onMessage := false; onError := false; onClose := false |}.

(** * The earlier drafts of the hook

    [src/use-eventsource.ts] holds two drafts of the hook without retry,
    pause and history.  They are the same code up to the names of the
    observers and the dependency list of the connecting effect, which in the
    second draft also lists the three observers; [with_handlers] says
    which dependency list is meant. *)

Module Draft.

(** [body?: string | FormData]: a string compares by value in a dependency
    list, a [FormData] by identity. *)
Inductive Body := BodyString (s : string) | BodyFormData (ref : nat).

#[global] Instance Body_eq_dec : EqDecision Body.
Proof. solve_decision. Defined.

(** The options; [headers] come with the identity of the object, an
    observer is the identity of the function. *)
Record Options := {
  url : string;
  headers : option (nat * gmap string string);
  method : option string;
  body : option Body;
  onMessage : option nat;
  onOpen : option nat;
  onError : option nat;
  customFetch : option nat;
}.

Record Request := {
  req_url : string;
  req_method : string;
  req_headers : option (gmap string string);
  req_body : option Body;
  req_signal : nat;
  req_fetch : option nat;
}.

(** An attempt: the request, the options its callbacks close over, and
    [controller.signal.aborted]. *)
Record Attempt := {
  at_request : Request;
  at_options : Options;
  aborted : bool;
}.

(** The hook instance: the state cell, the ref, the attempts made, the
    options of the latest render, those of the render whose effect is in
    force, and the observer calls made (which function, what call). *)
Record Hook := {
  readyState : ReadyState;
  controllerRef : option nat;
  attempts : list Attempt;
  props : Options;
  effect_props : Options;
  observed : list (nat * Observed);
}.

Definition setReadyState (v : ReadyState) (s : Hook) : Hook :=
  {| readyState := v; controllerRef := controllerRef s;
     attempts := attempts s; props := props s;
     effect_props := effect_props s; observed := observed s |}.

Definition set_controllerRef (v : option nat) (s : Hook) : Hook :=
  {| readyState := readyState s; controllerRef := v;
     attempts := attempts s; props := props s;
     effect_props := effect_props s; observed := observed s |}.

Definition set_attempts (v : list Attempt) (s : Hook) : Hook :=
  {| readyState := readyState s; controllerRef := controllerRef s;
     attempts := v; props := props s;
     effect_props := effect_props s; observed := observed s |}.

Definition set_props (v : Options) (s : Hook) : Hook :=
  {| readyState := readyState s; controllerRef := controllerRef s;
     attempts := attempts s; props := v;
     effect_props := effect_props s; observed := observed s |}.

Definition set_effect_props (v : Options) (s : Hook) : Hook :=
  {| readyState := readyState s; controllerRef := controllerRef s;
     attempts := attempts s; props := props s;
     effect_props := v; observed := observed s |}.

(** [handler?.(x)] *)
Definition call (handler : option nat) (x : Observed) (s : Hook) : Hook :=
  match handler with
  | Some f =>
      {| readyState := readyState s; controllerRef := controllerRef s;
         attempts := attempts s; props := props s;
         effect_props := effect_props s; observed := observed s ++ [(f, x)] |}
  | None => s
  end.

Definition abort_attempt (a : Attempt) : Attempt :=
  {| at_request := at_request a; at_options := at_options a; aborted := true |}.

(** [method || 'GET'] *)
Definition method_or_GET (m : option string) : string :=
  match m with
  | Some (String c cs) => String c cs
  | _ => "GET"
  end.

Definition build_request (o : Options) (controller : nat) : Request :=
  {| req_url := url o; req_method := method_or_GET (method o);
     req_headers := snd <$> headers o; req_body := body o;
     req_signal := controller; req_fetch := customFetch o |}.

Definition connect (o : Options) (s : Hook) : Hook :=
  let s :=
    match controllerRef s with
    | Some c => set_attempts (alter abort_attempt c (attempts s)) s
    | None => s
    end in
  let controller := length (attempts s) in
  let s := set_controllerRef (Some controller) s in
  let s := setReadyState CONNECTING s in
  set_attempts
    (attempts s ++
       [{| at_request := build_request o controller; at_options := o;
           aborted := false |}]) s.

Definition onopen (o : Options) (response : Response) (s : Hook) : Hook :=
  call (onOpen o) (ObsOpen response) (setReadyState OPEN s).

Definition onmessage (o : Options) (message : EventSourceMessage) (s : Hook)
    : Hook :=
  call (onMessage o) (ObsMessage message) s.

Definition onerror (o : Options) (err : ErrorValue) (s : Hook) : Hook :=
  call (onError o) (ObsError err) (setReadyState CLOSED s).

Definition close (s : Hook) : Hook :=
  match controllerRef s with
  | Some c =>
      setReadyState CLOSED (set_attempts (alter abort_attempt c (attempts s)) s)
  | None => s
  end.

(** [reconnect] of the latest render calls the [connect] of that render. *)
Definition reconnect (s : Hook) : Hook := connect (props s) s.

(** The dependency list of the connecting effect. *)
Definition effect_deps (with_handlers : bool) (o : Options) :=
  (url o, fst <$> headers o, method o, body o,
   if with_handlers then Some (onMessage o, onOpen o, onError o) else None).

(** A render: when a dependency changed, the cleanup of the effect in force
    closes, and the effect of this render connects. *)
Definition render (with_handlers : bool) (o : Options) (s : Hook) : Hook :=
  let s := set_props o s in
  if bool_decide (effect_deps with_handlers (effect_props s)
                  = effect_deps with_handlers o)
  then s
  else connect o (close (set_effect_props o s)).

Definition mount (o : Options) : Hook :=
  connect o
    {| readyState := CONNECTING; controllerRef := None; attempts := [];
       props := o; effect_props := o; observed := [] |}.

Inductive Event :=
| Open (c : nat) (response : Response)
| Message (c : nat) (message : EventSourceMessage)
| Error (c : nat) (err : ErrorValue)
| CallClose
| CallReconnect
| Render (o : Options).

(** A callback of attempt [c] runs with the options the attempt closed
    over. *)
Definition callback (c : nat) (f : Options -> Hook -> Hook) (s : Hook) : Hook :=
  match attempts s !! c with
  | Some a => f (at_options a) s
  | None => s
  end.

Definition handle (with_handlers : bool) (e : Event) (s : Hook) : Hook :=
  match e with
  | Open c response => callback c (fun o => onopen o response) s
  | Message c message => callback c (fun o => onmessage o message) s
  | Error c err => callback c (fun o => onerror o err) s
  | CallClose => close s
  | CallReconnect => reconnect s
  | Render o => render with_handlers o s
  end.

Definition live (c : nat) (s : Hook) : bool :=
  match attempts s !! c with
  | Some a => negb (aborted a)
  | None => false
  end.

Definition enabled (e : Event) (s : Hook) : bool :=
  match e with
  | Open c _ | Message c _ | Error c _ => live c s
  | _ => true
  end.

(** Whether handling [e] connects. *)
Definition connects (with_handlers : bool) (e : Event) (s : Hook) : bool :=
  match e with
  | CallReconnect => true
  | Render o =>
      negb (bool_decide (effect_deps with_handlers (effect_props s)
                         = effect_deps with_handlers o))
  | _ => false
  end.

Inductive steps (with_handlers : bool) (P : Event -> Hook -> bool)
    : Hook -> list Event -> Hook -> Prop :=
| steps_nil s : steps with_handlers P s [] s
| steps_cons s e es s' :
    enabled e s = true -> P e s = true ->
    steps with_handlers P (handle with_handlers e s) es s' ->
    steps with_handlers P s (e :: es) s'.

Definition reachable (with_handlers : bool) (s : Hook) : Prop :=
  exists o es, steps with_handlers (fun _ _ => true) (mount o) es s.

Definition quiet (with_handlers : bool) (e : Event) (s : Hook) : bool :=
  negb (connects with_handlers e s).

(** The invariant: an attempt whose signal is not aborted is the current
    one and was made with the dependencies of the latest render; every
    attempt has the request built from its options; the latest render has
    the dependencies of the effect in force. *)
Definition Inv (with_handlers : bool) (s : Hook) : Prop :=
  (forall c a, attempts s !! c = Some a -> aborted a = false ->
     controllerRef s = Some c /\
     effect_deps with_handlers (at_options a)
       = effect_deps with_handlers (props s)) /\
  (forall c a, attempts s !! c = Some a ->
     at_request a = build_request (at_options a) c) /\
  effect_deps with_handlers (props s)
    = effect_deps with_handlers (effect_props s).

Definition exec (with_handlers : bool) (es : list Event) (s : Hook) : Hook :=
  fold_left (fun s e => handle with_handlers e s) es s.

Fixpoint run (with_handlers : bool) (es : list Event) (s : Hook)
    : option Hook :=
  match es with
  | [] => Some s
  | e :: es =>
      if enabled e s then run with_handlers es (handle with_handlers e s)
      else None
  end.

(** Sample options: the same request with two different message observers. *)
Definition opts_a : Options :=
  {| url := "/api/events"; headers := Some (1, {[ "authorization" := "Bearer t" ]});
     method := None; body := None; onMessage := Some 10; onOpen := None;
     onError := Some 30; customFetch := None |}.

Definition opts_b : Options :=
  {| url := "/api/events"; headers := Some (1, {[ "authorization" := "Bearer t" ]});
     method := None; body := None; onMessage := Some 11; onOpen := None;
     onError := Some 30; customFetch := None |}.

End Draft.

(** ** Proof steps *)

(** The events that only abort, start or render: a field that
    [abort_current] and [start] leave alone is left alone by them. *)
Ltac frame_event Hstart Habort :=
  cbn [handle];
  lazymatch goal with
  | |- context [timers ?s !! ?i] =>
      destruct (timers s !! i); [|reflexivity];
      unfold timer_callback; case_match; [reflexivity|];
      rewrite Hstart; reflexivity
  | |- context [visibility_handler ?h ?s] =>
      unfold visibility_handler;
      destruct (pauseOnHidden (props s)); [|reflexivity];
      destruct h; [rewrite Habort | rewrite Hstart]; reflexivity
  | |- context [close ?s] => unfold close; cbn; rewrite Habort; reflexivity
  | |- context [reconnect ?s] => unfold reconnect; rewrite Hstart; reflexivity
  | |- context [render ?o ?s] =>
      unfold render; case_bool_decide; [reflexivity|];
      rewrite Hstart, Habort; reflexivity
  end.

(** Closed statements about sample runs are settled by evaluation. *)
Ltac by_evaluation :=
  vm_compute; repeat split; try reflexivity; try discriminate.

(** ** Basic facts *)

(** What [abort_current] and [start] leave alone. *)
Lemma abort_current_frame s :
  readyState (abort_current s) = readyState s /\
  lastEventId (abort_current s) = lastEventId s /\
  error (abort_current s) = error s /\
  retryCountRef (abort_current s) = retryCountRef s /\
  controllerRef (abort_current s) = controllerRef s /\
  timers (abort_current s) = timers s /\
  observed (abort_current s) = observed s.
Proof.
  unfold abort_current. destruct (controllerRef s) eqn:E; cbn; by rewrite ?E.
Qed.

Lemma controllerRef_abort_current s :
  controllerRef (abort_current s) = controllerRef s.
Proof. apply abort_current_frame. Qed.

Lemma timers_abort_current s : timers (abort_current s) = timers s.
Proof. apply abort_current_frame. Qed.

Lemma start_frame env s :
  readyState (start env s) = CONNECTING /\
  lastEventId (start env s) = lastEventId s /\
  error (start env s) = error s /\
  retryCountRef (start env s) = retryCountRef s /\
  timers (start env s) = timers s /\
  observed (start env s) = observed s.
Proof.
  unfold start; cbn.
  destruct (abort_current_frame s) as (_ & -> & -> & -> & _ & -> & ->). done.
Qed.

Lemma run_if_steps P es :
  forall s s', run_if P es s = Some s' -> steps P s es s'.
Proof.
  induction es as [|e es IH]; intros s s' H; simpl in H.
  - injection H as <-. constructor.
  - destruct (enabled e s) eqn:He; [|discriminate].
    destruct (P e s) eqn:HP; [|discriminate].
    econstructor; [exact He | exact HP | apply IH, H].
Qed.

Lemma run_steps es s s' : run es s = Some s' -> steps any_event s es s'.
Proof. apply run_if_steps. Qed.

Lemma steps_app P s es1 s1 es2 s2 :
  steps P s es1 s1 -> steps P s1 es2 s2 -> steps P s (es1 ++ es2) s2.
Proof. induction 1; simpl; intros; [assumption | econstructor; eauto]. Qed.

Lemma error_handle e s :
  enabled e s = true ->
  error (handle e s) =
  match e with
  | TransportError _ err => Some err
  | _ => error s
  end.
Proof.
  pose proof (fun env x => proj1 (proj2 (proj2 (start_frame env x)))) as Hs.
  pose proof (fun x => proj1 (proj2 (proj2 (abort_current_frame x)))) as Ha.
  destruct e as [c r|c m|c err|c|i|h| | |o]; intros He;
    try (by frame_event Hs Ha); try reflexivity.
  cbn [handle enabled] in *. unfold transport_error, live in *.
  destruct (attempts s !! c) as [a|]; [|discriminate].
  unfold onerror. by destruct (retryIntervalMs (cl_options (at_env a))).
Qed.

Lemma retryCountRef_handle e s :
  match e with
  | TransportOpen _ _ => retryCountRef (handle e s) = 0
  | TransportError _ _ =>
      retryCountRef (handle e s) = retryCountRef s \/
      retryCountRef (handle e s) = retryCountRef s + 1
  | _ => retryCountRef (handle e s) = retryCountRef s
  end.
Proof.
  pose proof (fun env x =>
                proj1 (proj2 (proj2 (proj2 (start_frame env x))))) as Hs.
  pose proof (fun x =>
                proj1 (proj2 (proj2 (proj2 (abort_current_frame x))))) as Ha.
  destruct e as [c r|c m|c err|c|i|h| | |o];
    try (by frame_event Hs Ha); try reflexivity.
  cbn [handle]. unfold transport_error.
  destruct (attempts s !! c) as [a|]; [|by left].
  unfold onerror. destruct (retryIntervalMs (cl_options (at_env a)));
    [by right | by left].
Qed.

(** ** The message callback and [lastEventId] *)

(** C1, as the code has it: after a message, [lastEventId] is the message's
    identifier, and the empty string when the message has none; every other
    event leaves [lastEventId] as it was.  A message without identifier
    therefore resets [lastEventId] to the empty string. *)
Theorem C1_lastEventId_is_id_of_last_message e s :
  lastEventId (handle e s) =
  match e with
  | TransportMessage _ m =>
      match msg_id m with Some i => i | None => "" end
  | _ => lastEventId s
  end.
Proof.
  pose proof (fun env x => proj1 (proj2 (start_frame env x))) as Hs.
  pose proof (fun x => proj1 (proj2 (abort_current_frame x))) as Ha.
  destruct e as [c r|c m|c err|c|i|h| | |o];
    try (by frame_event Hs Ha); try reflexivity.
  cbn [handle]. unfold transport_error.
  destruct (attempts s !! c) as [a|]; [|done].
  unfold onerror. by destruct (retryIntervalMs (cl_options (at_env a))).
Qed.

(** C1 fails as stated: after a message with identifier 42, a message
    without identifier changes [lastEventId] from 42 to the empty string. *)
Lemma C1_message_without_id_resets :
  let s := exec [TransportOpen 0 200; TransportMessage 0 msg_with_id]
                (mount opts_retry) in
  run [TransportOpen 0 200; TransportMessage 0 msg_with_id] (mount opts_retry)
    = Some s /\
  enabled (TransportMessage 0 msg_without_id) s = true /\
  msg_id msg_without_id = None /\
  lastEventId s = "42" /\
  lastEventId (handle (TransportMessage 0 msg_without_id) s) = "" /\
  lastEventId (handle (TransportMessage 0 msg_without_id) s) <> lastEventId s /\
  msg_id msg_empty_id = Some "" /\
  lastEventId (handle (TransportMessage 0 msg_empty_id) s) <> lastEventId s.
Proof. by_evaluation. Qed.

(** ** The error callback *)

(** C3, as the code has it: the error callback records the error, calls the
    error observer when one was supplied and sets the state to CLOSED; with
    a retry policy it then returns normally, without one it rethrows the
    error out of the callback. *)
Theorem C3_onerror_returns_or_rethrows env c err s :
  error (fst (onerror env c err s)) = Some err /\
  readyState (fst (onerror env c err s)) = CLOSED /\
  observed (fst (onerror env c err s)) =
    observed s ++ (if onError (props s) then [ObsError err] else []) /\
  snd (onerror env c err s) =
    match retryIntervalMs (cl_options env) with
    | Some _ => Returned
    | None => Threw err
    end.
Proof.
  unfold onerror. destruct (retryIntervalMs (cl_options env)); simpl;
    destruct (onError (props s)); simpl; rewrite ?app_nil_r; auto.
Qed.

(** C3 fails as stated: with no retry policy the error callback throws. *)
Lemma C3_onerror_throws_without_policy :
  retryIntervalMs opts_noretry = None /\
  enabled (TransportError 0 "network down") (mount opts_noretry) = true /\
  snd (onerror (startMemo (mount opts_noretry)) 0 "network down"
         (mount opts_noretry)) = Threw "network down".
Proof. by_evaluation. Qed.

(** ** The open callback and the retry count *)

(** C9: the open callback sets the state to OPEN, the retry count to 0 and
    calls the open observer, when one was supplied, with the response; no
    other event lowers the retry count. *)
Theorem C9_open_resets_retry_count e s :
  match e with
  | TransportOpen _ response =>
      readyState (handle e s) = OPEN /\
      retryCountRef (handle e s) = 0 /\
      observed (handle e s) =
        observed s ++ (if onOpen (props s) then [ObsOpen response] else [])
  | _ => retryCountRef s <= retryCountRef (handle e s)
  end.
Proof.
  pose proof (retryCountRef_handle e s) as H.
  destruct e; try lia.
  cbn. destruct (onOpen (props s)); by rewrite ?app_nil_r.
Qed.

(** ** The last error *)

(** C10: along every run the recorded error is that of the last transport
    error of the run, and the one recorded before the run when the run has
    no transport error; open, close and reconnect never clear it. *)
Theorem C10_error_kept_until_next_error s es s' :
  steps any_event s es s' ->
  error s' = match last_error es with Some e => Some e | None => error s end.
Proof.
  induction 1 as [s|s e es s' He _ _ IH]; simpl.
  - reflexivity.
  - rewrite IH, (error_handle e s He).
    destruct e; simpl; try reflexivity.
    destruct (last_error es); reflexivity.
Qed.

Lemma C10_error_kept_witness :
  let es := [TransportError 0 "boom"; TransportOpen 0 200; CallClose;
             CallReconnect; TransportOpen 1 200] in
  steps any_event (mount opts_retry) es (exec es (mount opts_retry)) /\
  error (exec es (mount opts_retry)) = Some "boom".
Proof.
  assert (H : steps any_event (mount opts_retry)
                [TransportError 0 "boom"; TransportOpen 0 200; CallClose;
                 CallReconnect; TransportOpen 1 200]
                (exec [TransportError 0 "boom"; TransportOpen 0 200; CallClose;
                       CallReconnect; TransportOpen 1 200] (mount opts_retry))).
  { apply run_steps. vm_compute. reflexivity. }
  pose proof (C10_error_kept_until_next_error _ _ _ H) as R.
  split; [exact H|]. vm_compute in R. vm_compute. exact R.
Defined.

(** ** The resumption header *)

(** What [start] sends: the headers of the new attempt are those of the
    closure, which hold [Last-Event-ID] exactly when the [lastEventId] the
    closure captured is not empty. *)
Lemma start_request env s :
  attempts (start env s) !! length (attempts s) =
    Some {| at_request := build_request env (length (attempts s));
            at_env := env; aborted := false; stopped := false |}.
Proof.
  unfold start, abort_current. destruct (controllerRef s) as [c|]; simpl.
  - rewrite length_alter.
    rewrite lookup_app_r by (rewrite length_alter; lia).
    rewrite length_alter, Nat.sub_diag. reflexivity.
  - rewrite lookup_app_r by lia. rewrite Nat.sub_diag. reflexivity.
Qed.

(** C7 at the failing input: after a message with identifier 42 was
    delivered and rendered, [reconnect()] runs the [start] of the first
    render, whose [lastEventId] is empty, and the request carries no
    [Last-Event-ID] header although [lastEventId] is 42. *)
Theorem C7_start_uses_lastEventId_of_first_render :
  let es := [TransportOpen 0 200; TransportMessage 0 msg_with_id;
             Render opts_retry; CallReconnect] in
  let s := exec es (mount opts_retry) in
  run es (mount opts_retry) = Some s /\
  lastEventId s = "42" /\
  (exists a, attempts s !! 1 = Some a /\
             aborted a = false /\
             req_headers (at_request a) !! "Last-Event-ID" = None).
Proof.
  vm_compute. repeat split. eexists. repeat split.
Qed.

(** ** Backoff *)

Lemma scaled_interval_exact base n :
  (Z.abs base * 2 ^ Z.of_nat n < 2 ^ 1024)%Z -> (base = 0%Z -> n <= 1023) ->
  scaled_interval base n = Fin (base * 2 ^ Z.of_nat n).
Proof.
  intros Hlt H0. unfold scaled_interval.
  destruct (Z.eqb_spec base 0) as [->|Hne].
  - destruct (Nat.leb_spec n 1023) as [_|Hn]; [done|].
    specialize (H0 eq_refl). lia.
  - by destruct (Z.ltb_spec (Z.abs base * 2 ^ Z.of_nat n) (2 ^ 1024)); [|lia].
Qed.

Lemma scaled_interval_overflow base n :
  (0 < base)%Z -> (2 ^ 1024 <= base * 2 ^ Z.of_nat n)%Z ->
  scaled_interval base n = Infinity.
Proof.
  intros Hb Hge. unfold scaled_interval.
  destruct (Z.eqb_spec base 0) as [->|Hne]; [lia|].
  rewrite Z.abs_eq by lia.
  destruct (Z.ltb_spec (base * 2 ^ Z.of_nat n) (2 ^ 1024)); [lia|].
  by destruct (Z.ltb_spec 0 base); [|lia].
Qed.

Lemma scaled_interval_negative_overflow base n :
  (base < 0)%Z -> (2 ^ 1024 <= - base * 2 ^ Z.of_nat n)%Z ->
  scaled_interval base n = NegInfinity.
Proof.
  intros Hb Hge. unfold scaled_interval.
  destruct (Z.eqb_spec base 0) as [->|Hne]; [lia|].
  rewrite Z.abs_neq by lia.
  destruct (Z.ltb_spec (- base * 2 ^ Z.of_nat n) (2 ^ 1024)); [lia|].
  by destruct (Z.ltb_spec 0 base); [lia|].
Qed.

Lemma scaled_interval_zero n :
  1024 <= n -> scaled_interval 0 n = NaN.
Proof.
  intros Hn. unfold scaled_interval. cbn.
  by destruct (Nat.leb_spec n 1023); [lia|].
Qed.

Lemma delay_spec base cap n :
  (Z.abs base * 2 ^ Z.of_nat n < 2 ^ 1024)%Z -> (base = 0%Z -> n <= 1023) ->
  delay base cap n = Fin (spec_delay base cap n).
Proof.
  intros Hlt H0. unfold delay, spec_delay.
  rewrite scaled_interval_exact by done. by destruct cap.
Qed.

(** The delay in every case. *)
Lemma delay_cases base cap n :
  backoff_delay_spec base cap n (delay base cap n).
Proof.
  split; [apply delay_spec|]. split; [|split; [|split]].
  - intros Hb Hge. unfold delay. rewrite scaled_interval_overflow by done.
    by destruct cap.
  - intros Hb Hge. unfold delay.
    rewrite scaled_interval_negative_overflow by done. by destruct cap.
  - intros -> Hn. unfold delay. rewrite scaled_interval_zero by done.
    by destruct cap.
  - intros Hb c -> Hc.
    destruct (Z.lt_ge_cases (base * 2 ^ Z.of_nat n) (2 ^ 1024)) as [Hlt|Hge].
    + rewrite delay_spec; [done | by rewrite Z.abs_eq by lia | lia].
    + unfold delay. rewrite scaled_interval_overflow by done. cbn.
      f_equal. lia.
Qed.


Lemma DepsInv_mount o : DepsInv o "" (mount o).
Proof.
  unfold DepsInv, mount, start, abort_current; simpl.
  split; [done|]. split; [|constructor]. by apply Forall_singleton.
Qed.

Lemma DepsInv_abort_current o id s :
  DepsInv o id s -> DepsInv o id (abort_current s).
Proof.
  intros (H1 & H2 & H3). unfold abort_current.
  destruct (controllerRef s); [|done].
  split; [done|]. split; [|done]. simpl.
  apply Forall_alter; auto.
Qed.

Lemma DepsInv_start o id env s :
  made_with o id env -> DepsInv o id s -> DepsInv o id (start env s).
Proof.
  intros He H. apply DepsInv_abort_current in H. destruct H as (H1 & H2 & H3).
  unfold start. split; [done|]. split; [|done]. simpl.
  apply Forall_app_2; [done|]. apply Forall_singleton. exact He.
Qed.

Lemma DepsInv_handle o id e s :
  DepsInv o id s -> keeps_deps o e s = true -> DepsInv o id (handle e s).
Proof.
  intros H Hk. pose proof H as (H1 & H2 & H3).
  destruct e; simpl in *; try exact H.
  - (* error *)
    unfold transport_error. destruct (attempts s !! c) as [a|] eqn:Ha; [|done].
    pose proof (Forall_lookup_1 _ _ _ _ H2 Ha) as Hd. simpl in Hd.
    unfold onerror. destruct (retryIntervalMs (cl_options (at_env a))); simpl.
    + split; [done|]. split; [done|]. simpl.
      apply Forall_app_2; [done|]. apply Forall_singleton. exact Hd.
    + split; [done|]. split; [|done]. simpl.
      apply Forall_alter; auto.
  - (* timer *)
    destruct (timers s !! i) as [t|] eqn:Ht; [|done].
    pose proof (Forall_lookup_1 _ _ _ _ H3 Ht) as Hd. simpl in Hd.
    assert (Hs : DepsInv o id (set_timers (delete i (timers s)) s)).
    { split; [done|]. split; [done|]. simpl. by apply Forall_delete. }
    unfold timer_callback. case_match; [done|]. by apply DepsInv_start.
  - (* visibility *)
    unfold visibility_handler. destruct (pauseOnHidden (props s)); [|done].
    destruct hidden; [by apply DepsInv_abort_current | by apply DepsInv_start].
  - (* close *)
    apply (DepsInv_abort_current o id s) in H. exact H.
  - (* reconnect *)
    by apply DepsInv_start.
  - (* render *)
    unfold render; simpl. apply bool_decide_eq_true in Hk.
    destruct H1 as [H1 _].
    rewrite bool_decide_eq_true_2 by congruence. exact H.
Qed.

Lemma DepsInv_steps o id s es s' :
  DepsInv o id s -> steps (keeps_deps o) s es s' -> DepsInv o id s'.
Proof.
  intros H Hs. induction Hs; [done|]. apply IHHs, DepsInv_handle; done.
Qed.

(** *** The retry policy of the closures *)











(** The schedule for base 1000 ms and cap 30000 ms: seven errors in a row
    schedule the delays 1000, 2000, 4000, 8000, 16000, 30000, 30000. *)
Example backoff_schedule_1000_30000 :
  tm_delay <$>
    timers (exec (replicate 7 (TransportError 0 "offline")) (mount opts_retry))
  = [Fin 1000; Fin 2000; Fin 4000; Fin 8000; Fin 16000; Fin 30000; Fin 30000].
Proof. by_evaluation. Qed.

Lemma spec_delay_capped n :
  5 <= n -> spec_delay 1000 (Some 30000%Z) n = 30000%Z.
Proof.
  intros Hn. unfold spec_delay.
  assert (2 ^ 5 <= 2 ^ Z.of_nat n)%Z by (apply Z.pow_le_mono_r; lia).
  lia.
Qed.

(** With base 1000 ms and cap 30000 ms the delay is 30000 ms from the sixth
    failure on, however long the failures last. *)
Lemma delay_capped_for_ever n : 5 <= n -> delay 1000 (Some 30000%Z) n = Fin 30000.
Proof.
  intros Hn. destruct (delay_cases 1000 (Some 30000%Z) n) as (_ & _ & _ & _ & H).
  rewrite (H ltac:(lia) 30000%Z eq_refl ltac:(vm_compute; reflexivity)).
  f_equal. apply (spec_delay_capped n Hn).
Qed.

(** ** Attempts only grow *)

Lemma grows_refl l : grows l l.
Proof. intros c a H. eauto. Qed.

Lemma grows_trans l1 l2 l3 : grows l1 l2 -> grows l2 l3 -> grows l1 l3.
Proof.
  intros H12 H23 c a H.
  destruct (H12 c a H) as (a2 & H2 & He2 & Ha2 & Hs2).
  destruct (H23 c a2 H2) as (a3 & H3 & He3 & Ha3 & Hs3).
  exists a3. repeat split; [done | congruence | auto | auto].
Qed.

Lemma grows_app l l' : grows l (l ++ l').
Proof. intros c a H. exists a. split; [by apply lookup_app_l_Some | done]. Qed.

Lemma grows_abort c l : grows l (alter abort_attempt c l).
Proof.
  intros j a H. rewrite list_lookup_alter. case_decide; subst.
  - rewrite H. simpl. eexists. split; [done|]. done.
  - eauto.
Qed.

Lemma grows_stop c l : grows l (alter stop_attempt c l).
Proof.
  intros j a H. rewrite list_lookup_alter. case_decide; subst.
  - rewrite H. simpl. eexists. split; [done|]. done.
  - eauto.
Qed.

Lemma grows_abort_current s : grows (attempts s) (attempts (abort_current s)).
Proof.
  unfold abort_current. destruct (controllerRef s); simpl;
    [apply grows_abort | apply grows_refl].
Qed.

Lemma grows_start env s : grows (attempts s) (attempts (start env s)).
Proof.
  unfold start; simpl.
  eapply grows_trans; [apply grows_abort_current | apply grows_app].
Qed.

Lemma grows_handle e s : grows (attempts s) (attempts (handle e s)).
Proof.
  destruct e; simpl; try apply grows_refl.
  - unfold transport_error. destruct (attempts s !! c); [|apply grows_refl].
    unfold onerror. destruct (retryIntervalMs _); simpl;
      [apply grows_refl | apply grows_stop].
  - destruct (timers s !! i); [|apply grows_refl].
    unfold timer_callback. case_match; [apply grows_refl|].
    apply (grows_start _ (set_timers _ s)).
  - unfold visibility_handler. destruct (pauseOnHidden _); [|apply grows_refl].
    destruct hidden; [apply grows_abort_current | apply grows_start].
  - apply grows_abort_current.
  - apply grows_start.
  - unfold render. case_bool_decide; [apply grows_refl|].
    eapply grows_trans; [|apply grows_start].
    apply (grows_abort_current (set_startMemo _ (set_props o s))).
Qed.

Lemma grows_steps P s es s' :
  steps P s es s' -> grows (attempts s) (attempts s').
Proof.
  induction 1; [apply grows_refl|].
  eapply grows_trans; [apply grows_handle | done].
Qed.

Lemma grows_signal_aborted s s' c :
  grows (attempts s) (attempts s') ->
  signal_aborted c s = true -> signal_aborted c s' = true.
Proof.
  unfold signal_aborted. intros Hg H.
  destruct (attempts s !! c) as [a|] eqn:Ha; [|discriminate].
  destruct (Hg c a Ha) as (a' & -> & _ & Hab & _). auto.
Qed.

Lemma grows_not_live s s' c :
  grows (attempts s) (attempts s') ->
  is_Some (attempts s !! c) -> live c s = false -> live c s' = false.
Proof.
  unfold live. intros Hg [a Ha] H. rewrite Ha in H.
  destruct (Hg c a Ha) as (a' & -> & _ & Hab & Hst).
  destruct (aborted a) eqn:E1; [rewrite Hab by done; done|].
  destruct (stopped a) eqn:E2; [rewrite Hst by done|discriminate].
  by rewrite andb_false_r.
Qed.

(** ** The cancel-then-replace invariant *)

Lemma Inv_all_aborted s :
  Inv s -> Forall (fun a => aborted a = true) (attempts (abort_current s)).
Proof.
  intros (I1 & I2 & I3). apply Forall_lookup_2. intros j a.
  unfold abort_current. destruct (controllerRef s) as [c|] eqn:Hc; simpl.
  - rewrite list_lookup_alter. case_decide; subst.
    + destruct (attempts s !! j); simpl; [|done]. by intros [= <-].
    + intros Ha. destruct (aborted a) eqn:E; [done|].
      specialize (I1 j a Ha E). congruence.
  - intros Ha. destruct (aborted a) eqn:E; [done|].
    specialize (I1 j a Ha E). congruence.
Qed.

Lemma timers_grow s s' :
  grows (attempts s) (attempts s') ->
  (forall t, t ∈ timers s ->
     exists a, attempts s !! tm_controller t = Some a /\
               is_Some (retryIntervalMs (cl_options (at_env a)))) ->
  forall t, t ∈ timers s ->
    exists a, attempts s' !! tm_controller t = Some a /\
              is_Some (retryIntervalMs (cl_options (at_env a))).
Proof.
  intros Hg H t Ht. destruct (H t Ht) as (a & Ha & Hp).
  destruct (Hg _ _ Ha) as (a' & Ha' & He & _). exists a'. by rewrite He.
Qed.

Lemma length_abort_current s :
  length (attempts (abort_current s)) = length (attempts s).
Proof.
  unfold abort_current. destruct (controllerRef s); simpl; [|done].
  apply length_alter.
Qed.

Lemma Inv_abort_current s : Inv s -> Inv (abort_current s).
Proof.
  intros H. pose proof (Inv_all_aborted s H) as Hall.
  destruct H as (I1 & I2 & I3). split; [|split].
  - intros c a Ha E. pose proof (Forall_lookup_1 _ _ _ _ Hall Ha). congruence.
  - intros c Hc. rewrite length_abort_current. apply I2.
    by rewrite controllerRef_abort_current in Hc.
  - rewrite timers_abort_current.
    apply (timers_grow s); [apply grows_abort_current | done].
Qed.

Lemma Inv_start env s : Inv s -> Inv (start env s).
Proof.
  intros H. pose proof (Inv_all_aborted s H) as Hall.
  apply Inv_abort_current in H. destruct H as (I1 & I2 & I3).
  unfold start. split; [|split]; simpl.
  - intros c a Ha E. apply lookup_app_Some in Ha as [Ha|[Hl Ha]].
    + pose proof (Forall_lookup_1 _ _ _ _ Hall Ha). simpl in *. congruence.
    + f_equal. apply lookup_lt_Some in Ha. simpl in Ha. lia.
  - intros c [= <-]. rewrite length_app. simpl. lia.
  - intros t Ht. destruct (I3 t Ht) as (a & Ha & Hp).
    exists a. split; [by apply lookup_app_l_Some | done].
Qed.

Lemma Inv_mount o : Inv (mount o).
Proof.
  apply Inv_start. split; [|split]; simpl.
  - intros c a Ha. by rewrite lookup_nil in Ha.
  - intros c Hc. discriminate.
  - intros t Ht. by apply elem_of_nil in Ht.
Qed.

Lemma Inv_handle e s : Inv s -> Inv (handle e s).
Proof.
  intros H. pose proof H as (I1 & I2 & I3).
  destruct e; simpl; try exact H.
  - (* error *)
    unfold transport_error. destruct (attempts s !! c) as [a|] eqn:Ha; [|done].
    unfold onerror.
    destruct (retryIntervalMs (cl_options (at_env a))) as [base|] eqn:Hb; simpl.
    + split; [|split]; simpl; [done | done |].
      intros t Ht. apply elem_of_app in Ht as [Ht|Ht]; [by apply I3|].
      apply list_elem_of_singleton in Ht as ->. simpl.
      exists a. by rewrite Hb.
    + split; [|split]; simpl.
      * intros j a' Ha'. rewrite list_lookup_alter in Ha'.
        case_decide; subst; [|by apply I1].
        rewrite Ha in Ha'. simpl in Ha'. injection Ha' as <-. simpl.
        by apply I1.
      * intros j Hj. rewrite length_alter. by apply I2.
      * intros t Ht.
        exact (timers_grow s
                 (set_attempts (alter stop_attempt c (attempts s)) s)
                 (grows_stop c (attempts s)) I3 t Ht).
  - (* timer *)
    destruct (timers s !! i) as [t|] eqn:Ht; [|done].
    assert (Hs : Inv (set_timers (delete i (timers s)) s)).
    { split; [|split]; simpl; [done | done |].
      intros t' Ht'. apply I3. by eapply list_elem_of_delete_inv. }
    unfold timer_callback. case_match; [done | by apply Inv_start].
  - (* visibility *)
    unfold visibility_handler. destruct (pauseOnHidden (props s)); [|done].
    destruct hidden; [by apply Inv_abort_current | by apply Inv_start].
  - (* close *)
    apply Inv_abort_current in H. exact H.
  - (* reconnect *)
    by apply Inv_start.
  - (* render *)
    unfold render. case_bool_decide; [exact H|].
    apply Inv_start.
    apply (Inv_abort_current (set_startMemo _ (set_props o s))). exact H.
Qed.

Lemma Inv_steps P s es s' : Inv s -> steps P s es s' -> Inv s'.
Proof. intros H Hs. induction Hs; [done|]. by apply IHHs, Inv_handle. Qed.

Lemma Inv_reachable s : reachable s -> Inv s.
Proof. intros (o & es & H). eapply Inv_steps; [apply Inv_mount | exact H]. Qed.

(** At most one attempt can call back: a live attempt is the current one. *)
Lemma live_is_current s c :
  Inv s -> live c s = true -> controllerRef s = Some c.
Proof.
  intros (I1 & _) H. unfold live in H.
  destruct (attempts s !! c) as [a|] eqn:Ha; [|discriminate].
  apply (I1 c a Ha). by destruct (aborted a).
Qed.

Lemma live_unique s c c' :
  Inv s -> live c s = true -> live c' s = true -> c = c'.
Proof.
  intros H Hc Hc'. apply (live_is_current s c H) in Hc.
  apply (live_is_current s c' H) in Hc'. congruence.
Qed.

(** ** States in which nothing is scheduled to happen *)

Lemma timer_callback_aborted t s :
  signal_aborted (tm_controller t) s = true -> timer_callback t s = s.
Proof. unfold timer_callback. by intros ->. Qed.

Lemma live_abort_current c s :
  live c s = false -> live c (abort_current s) = false.
Proof.
  intros H. destruct (attempts s !! c) as [a|] eqn:Ha.
  - eapply grows_not_live; [apply grows_abort_current | by eexists | done].
  - unfold live. unfold abort_current. destruct (controllerRef s); simpl;
      [|by rewrite Ha].
    rewrite list_lookup_alter. case_decide; subst; by rewrite Ha.
Qed.

Lemma inert_abort_current s : inert s -> inert (abort_current s).
Proof.
  intros [H1 H2]. split.
  - intros c. by apply live_abort_current.
  - rewrite timers_abort_current.
    intros t Ht. eapply grows_signal_aborted;
      [apply grows_abort_current | by apply H2].
Qed.

(** Once every attempt is aborted, the state is inert. *)
Lemma inert_all_aborted s :
  Inv s -> Forall (fun a => aborted a = true) (attempts s) -> inert s.
Proof.
  intros (_ & _ & I3) Hall. split.
  - intros c. unfold live. destruct (attempts s !! c) as [a|] eqn:Ha; [|done].
    by rewrite (Forall_lookup_1 _ _ _ _ Hall Ha).
  - intros t Ht. destruct (I3 t Ht) as (a & Ha & _).
    unfold signal_aborted. rewrite Ha.
    apply (Forall_lookup_1 _ _ _ _ Hall Ha).
Qed.

Lemma inert_close s : Inv s -> inert (close s).
Proof.
  intros H. apply (inert_all_aborted (close s)).
  - apply Inv_abort_current in H. exact H.
  - apply (Inv_all_aborted s H).
Qed.

(** An inert state stays inert, makes no new attempt and stays CLOSED until
    an event calls [start] for the caller or the page. *)
Lemma inert_handle e s :
  inert s -> enabled e s = true -> quiet e s = true ->
  inert (handle e s) /\
  length (attempts (handle e s)) = length (attempts s) /\
  (readyState s = CLOSED -> readyState (handle e s) = CLOSED).
Proof.
  intros Hi He Hq. pose proof Hi as [H1 H2].
  destruct e; simpl in He; try (rewrite H1 in He; discriminate);
    unfold quiet in Hq; simpl in *.
  - (* timer *)
    apply bool_decide_eq_true in He.
    destruct (lookup_lt_is_Some_2 _ _ He) as [t Ht]. rewrite Ht.
    rewrite timer_callback_aborted
      by (apply (H2 t); by eapply list_elem_of_lookup_2).
    split; [|done]. split; [done|]. simpl.
    intros t' Ht'. apply (H2 t'). by eapply list_elem_of_delete_inv.
  - (* visibility *)
    unfold visibility_handler.
    destruct (pauseOnHidden (props s)); [|done].
    destruct hidden; [|discriminate].
    split; [by apply inert_abort_current|].
    split; [apply length_abort_current|].
    by rewrite (proj1 (abort_current_frame s)).
  - (* close *)
    split; [by apply (inert_abort_current s)|].
    split; [apply length_abort_current | done].
  - (* reconnect *) discriminate.
  - (* render *)
    unfold render. apply negb_true_iff, negb_false_iff in Hq.
    simpl. rewrite Hq. done.
Qed.

Lemma inert_steps s es s' :
  inert s -> steps quiet s es s' ->
  inert s' /\
  length (attempts s') = length (attempts s) /\
  (readyState s = CLOSED -> readyState s' = CLOSED).
Proof.
  intros Hi Hs. induction Hs as [s|s e es s' He Hq Hs IH]; [done|].
  destruct (inert_handle e s Hi He Hq) as (Hi' & Hl & Hr).
  destruct (IH Hi') as (Hi'' & Hl' & Hr').
  split; [done|]. split; [congruence | auto].
Qed.

(** ** [start] replaces the attempt *)

Lemma length_start env s :
  length (attempts (start env s)) = S (length (attempts s)).
Proof.
  unfold start; simpl. rewrite length_app, length_abort_current. simpl. lia.
Qed.

Lemma controllerRef_start env s :
  controllerRef (start env s) = Some (length (attempts s)).
Proof. unfold start; simpl. by rewrite length_abort_current. Qed.

Lemma live_start env s : live (length (attempts s)) (start env s) = true.
Proof. unfold live. by rewrite start_request. Qed.

Lemma timers_start env s : timers (start env s) = timers s.
Proof. apply start_frame. Qed.

(** [start] aborts the controller of every pending timer. *)
Lemma start_cancels_timers env s t :
  Inv s -> t ∈ timers s ->
  signal_aborted (tm_controller t) (start env s) = true.
Proof.
  intros H Ht. pose proof (Inv_all_aborted s H) as Hall.
  destruct H as (_ & _ & I3). destruct (I3 t Ht) as (a & Ha & _).
  destruct (grows_abort_current s _ _ Ha) as (a' & Ha' & _).
  unfold signal_aborted, start; simpl.
  rewrite (lookup_app_l_Some _ _ _ _ Ha').
  apply (Forall_lookup_1 _ _ _ _ Hall Ha').
Qed.

(** [start] aborts the controller that was current. *)
Lemma start_aborts_current env s c :
  Inv s -> controllerRef s = Some c ->
  signal_aborted c (start env s) = true.
Proof.
  intros H Hc. pose proof (Inv_all_aborted s H) as Hall.
  destruct H as (_ & I2 & _).
  destruct (lookup_lt_is_Some_2 _ _ (I2 c Hc)) as [a Ha].
  destruct (grows_abort_current s _ _ Ha) as (a' & Ha' & _).
  unfold signal_aborted, start; simpl.
  rewrite (lookup_app_l_Some _ _ _ _ Ha').
  apply (Forall_lookup_1 _ _ _ _ Hall Ha').
Qed.

Lemma aborted_not_live c s : signal_aborted c s = true -> live c s = false.
Proof.
  unfold signal_aborted, live. destruct (attempts s !! c); [|done].
  by intros ->.
Qed.

Lemma signal_aborted_exists c s :
  signal_aborted c s = true -> is_Some (attempts s !! c).
Proof. unfold signal_aborted. destruct (attempts s !! c); eauto; done. Qed.

(** C5: two calls of [start] in a row leave exactly one attempt that can
    call back, the second: the first was made and then aborted by the second
    call, no callback of the first is enabled in any later state, and in
    every later state at most one attempt can call back. *)
Theorem C5_start_twice_leaves_one_attempt s env1 env2 es s' e :
  reachable s ->
  steps any_event (start env2 (start env1 s)) es s' ->
  event_attempt e = Some (length (attempts s)) ->
  live (length (attempts s)) (start env1 s) = true /\
  signal_aborted (length (attempts s)) (start env2 (start env1 s)) = true /\
  live (S (length (attempts s))) (start env2 (start env1 s)) = true /\
  (forall c, live c (start env2 (start env1 s)) = true ->
             c = S (length (attempts s))) /\
  enabled e s' = false /\
  (forall c c', live c s' = true -> live c' s' = true -> c = c').
Proof.
  intros Hr Hs He. apply Inv_reachable in Hr.
  pose proof (Inv_start env1 s Hr) as H1.
  pose proof (Inv_start env2 _ H1) as H2.
  pose proof (Inv_steps _ _ _ _ H2 Hs) as H'.
  assert (Hab : signal_aborted (length (attempts s))
                  (start env2 (start env1 s)) = true).
  { apply start_aborts_current; [done | apply controllerRef_start]. }
  split; [apply live_start|]. split; [exact Hab|].
  split; [rewrite <- (length_start env1 s); apply live_start|].
  split.
  { intros c Hc. apply (live_is_current _ _ H2) in Hc.
    rewrite controllerRef_start, length_start in Hc. congruence. }
  split; [|intros c c'; by apply live_unique].
  assert (live (length (attempts s)) s' = false) as Hdead.
  { eapply grows_not_live; [by eapply grows_steps | |].
    - by apply signal_aborted_exists.
    - by apply aborted_not_live. }
  destruct e; simpl in He; try discriminate; injection He as ->; exact Hdead.
Qed.

Lemma C5_start_twice_witness :
  reachable (mount opts_retry) /\
  steps any_event (reconnect (reconnect (mount opts_retry)))
        [TransportOpen 2 200]
        (exec [TransportOpen 2 200] (reconnect (reconnect (mount opts_retry)))) /\
  event_attempt (TransportOpen 1 200) = Some 1 /\
  live 1 (reconnect (mount opts_retry)) = true /\
  signal_aborted 1 (reconnect (reconnect (mount opts_retry))) = true /\
  live 2 (reconnect (reconnect (mount opts_retry))) = true /\
  (forall c, live c (reconnect (reconnect (mount opts_retry))) = true -> c = 2) /\
  enabled (TransportOpen 1 200)
    (exec [TransportOpen 2 200] (reconnect (reconnect (mount opts_retry))))
    = false /\
  (forall c c',
     live c (exec [TransportOpen 2 200]
               (reconnect (reconnect (mount opts_retry)))) = true ->
     live c' (exec [TransportOpen 2 200]
                (reconnect (reconnect (mount opts_retry)))) = true ->
     c = c').
Proof.
  assert (Hr : reachable (mount opts_retry)).
  { exists opts_retry, []. constructor. }
  assert (Hs : steps any_event (reconnect (reconnect (mount opts_retry)))
                 [TransportOpen 2 200]
                 (exec [TransportOpen 2 200]
                    (reconnect (reconnect (mount opts_retry))))).
  { apply run_steps. vm_compute. reflexivity. }
  pose proof (C5_start_twice_leaves_one_attempt (mount opts_retry)
                (startMemo (mount opts_retry)) (startMemo (mount opts_retry))
                [TransportOpen 2 200] _ (TransportOpen 1 200) Hr Hs eq_refl)
    as R.
  split; [exact Hr|]. split; [exact Hs|]. split; [reflexivity|].
  vm_compute in R. vm_compute. exact R.
Defined.

(** ** [close()] during a pending retry *)

(** C6: [close()] sets the state to CLOSED and aborts the controller that
    every pending retry timer checks, so that a timer that fires afterwards
    does nothing; from then on, as long as no event calls [start] for the
    caller or the page, no connection attempt is made and the state stays
    CLOSED.  This holds in particular when a retry timer is pending. *)
Theorem C6_close_disarms_pending_retry s es s' :
  reachable s ->
  steps quiet (close s) es s' ->
  readyState (close s) = CLOSED /\
  timers (close s) = timers s /\
  (forall t, t ∈ timers s -> timer_callback t (close s) = close s) /\
  length (attempts s') = length (attempts s) /\
  readyState s' = CLOSED.
Proof.
  intros Hr Hs. apply Inv_reachable in Hr.
  pose proof (inert_close s Hr) as Hi.
  destruct (inert_steps _ _ _ Hi Hs) as (_ & Hl & Hc).
  assert (Ht : timers (close s) = timers s).
  { unfold close; cbn. apply timers_abort_current. }
  split; [done|]. split; [exact Ht|]. split.
  - intros t Hin. apply timer_callback_aborted.
    destruct Hi as [_ Hi]. apply Hi. by rewrite Ht.
  - split; [|by apply Hc].
    rewrite Hl. unfold close; simpl. apply length_abort_current.
Qed.

Lemma C6_close_witness :
  reachable retry_pending /\
  steps quiet (close retry_pending) [TimerFires 0; VisibilityChange true]
    (exec [TimerFires 0; VisibilityChange true] (close retry_pending)) /\
  length (timers retry_pending) = 1 /\
  readyState (close retry_pending) = CLOSED /\
  timers (close retry_pending) = timers retry_pending /\
  (forall t, t ∈ timers retry_pending ->
     timer_callback t (close retry_pending) = close retry_pending) /\
  length (attempts (exec [TimerFires 0; VisibilityChange true]
                      (close retry_pending))) = 1 /\
  readyState (exec [TimerFires 0; VisibilityChange true] (close retry_pending))
    = CLOSED.
Proof.
  assert (Hr : reachable retry_pending).
  { exists opts_retry, [TransportError 0 "offline"].
    apply run_steps. vm_compute. reflexivity. }
  assert (Hs : steps quiet (close retry_pending)
                 [TimerFires 0; VisibilityChange true]
                 (exec [TimerFires 0; VisibilityChange true]
                    (close retry_pending))).
  { apply run_if_steps. vm_compute. reflexivity. }
  pose proof (C6_close_disarms_pending_retry retry_pending
                [TimerFires 0; VisibilityChange true] _ Hr Hs) as R.
  split; [exact Hr|]. split; [exact Hs|].
  split; [vm_compute; reflexivity|].
  vm_compute in R. vm_compute. exact R.
Defined.

(** ** An error without retry policy *)

Lemma inert_after_terminal_error s c a err :
  Inv s -> attempts s !! c = Some a ->
  retryIntervalMs (cl_options (at_env a)) = None ->
  live c s = true ->
  inert (handle (TransportError c err) s).
Proof.
  intros H Ha Hp Hl. pose proof (live_is_current s c H Hl) as Hc.
  destruct H as (I1 & I2 & I3).
  simpl. unfold transport_error, onerror. rewrite Ha, Hp. split; simpl.
  - intros j. unfold live; simpl. rewrite list_lookup_alter.
    case_decide; subst.
    + rewrite Ha; simpl. apply andb_false_r.
    + destruct (attempts s !! j) as [a'|] eqn:Ha'; [|done].
      destruct (aborted a') eqn:E; [done|].
      specialize (I1 j a' Ha' E). congruence.
  - intros t Ht. destruct (I3 t Ht) as (a' & Ha' & Hp').
    unfold signal_aborted; simpl. rewrite list_lookup_alter.
    case_decide as Hj.
    + rewrite <- Hj, Ha in Ha'. injection Ha' as <-.
      rewrite Hp in Hp'. by destruct Hp'.
    + rewrite Ha'. destruct (aborted a') eqn:E; [done|].
      specialize (I1 _ a' Ha' E). congruence.
Qed.

(** C8: the error of an attempt made without retry policy is recorded and
    handed to the error observer, when one was supplied; the state becomes
    CLOSED, no timer is scheduled, no attempt can call back any more and no
    pending timer can start one; from then on, as long as no event calls
    [start] for the caller or the page, no connection attempt is made and
    the state stays CLOSED. *)
Theorem C8_error_without_policy_is_terminal s c a err es s' :
  reachable s ->
  attempts s !! c = Some a ->
  retryIntervalMs (cl_options (at_env a)) = None ->
  enabled (TransportError c err) s = true ->
  steps quiet (handle (TransportError c err) s) es s' ->
  readyState (handle (TransportError c err) s) = CLOSED /\
  error (handle (TransportError c err) s) = Some err /\
  observed (handle (TransportError c err) s) =
    observed s ++ (if onError (props s) then [ObsError err] else []) /\
  timers (handle (TransportError c err) s) = timers s /\
  length (attempts (handle (TransportError c err) s)) = length (attempts s) /\
  (forall c', live c' (handle (TransportError c err) s) = false) /\
  (forall t, t ∈ timers s ->
     timer_callback t (handle (TransportError c err) s) =
     handle (TransportError c err) s) /\
  length (attempts s') = length (attempts s) /\
  readyState s' = CLOSED.
Proof.
  intros Hr Ha Hp He Hs. apply Inv_reachable in Hr.
  pose proof (inert_after_terminal_error s c a err Hr Ha Hp He) as Hi.
  destruct (inert_steps _ _ _ Hi Hs) as (_ & Hl & Hc).
  revert Hi Hl Hc. simpl. unfold transport_error, onerror. rewrite Ha, Hp.
  simpl. intros [Hi1 Hi2] Hl Hc.
  split; [done|]. split; [done|].
  split; [destruct (onError (props s)); simpl; by rewrite ?app_nil_r|].
  split; [done|]. split; [apply length_alter|]. split; [exact Hi1|].
  split; [intros t Ht; by apply timer_callback_aborted, Hi2|].
  split; [by rewrite Hl, length_alter | by apply Hc].
Qed.

Lemma C8_error_without_policy_witness :
  reachable (mount opts_noretry) /\
  attempts (mount opts_noretry) !! 0 =
    Some {| at_request := build_request (startMemo (mount opts_noretry)) 0;
            at_env := startMemo (mount opts_noretry);
            aborted := false; stopped := false |} /\
  retryIntervalMs opts_noretry = None /\
  enabled (TransportError 0 "offline") (mount opts_noretry) = true /\
  steps quiet (handle (TransportError 0 "offline") (mount opts_noretry))
    [VisibilityChange true; CallClose]
    (exec [TransportError 0 "offline"; VisibilityChange true; CallClose]
       (mount opts_noretry)) /\
  readyState (handle (TransportError 0 "offline") (mount opts_noretry))
    = CLOSED /\
  error (handle (TransportError 0 "offline") (mount opts_noretry))
    = Some "offline" /\
  observed (handle (TransportError 0 "offline") (mount opts_noretry))
    = [ObsError "offline"] /\
  timers (handle (TransportError 0 "offline") (mount opts_noretry)) = [] /\
  length (attempts (handle (TransportError 0 "offline") (mount opts_noretry)))
    = 1 /\
  (forall c', live c' (handle (TransportError 0 "offline") (mount opts_noretry))
              = false) /\
  (forall t, t ∈ timers (mount opts_noretry) ->
     timer_callback t (handle (TransportError 0 "offline") (mount opts_noretry))
     = handle (TransportError 0 "offline") (mount opts_noretry)) /\
  length (attempts (exec [TransportError 0 "offline"; VisibilityChange true;
                          CallClose] (mount opts_noretry))) = 1 /\
  readyState (exec [TransportError 0 "offline"; VisibilityChange true;
                    CallClose] (mount opts_noretry)) = CLOSED.
Proof.
  assert (Hr : reachable (mount opts_noretry)).
  { exists opts_noretry, []. constructor. }
  assert (Hs : steps quiet
                 (handle (TransportError 0 "offline") (mount opts_noretry))
                 [VisibilityChange true; CallClose]
                 (exec [TransportError 0 "offline"; VisibilityChange true;
                        CallClose] (mount opts_noretry))).
  { apply run_if_steps. vm_compute. reflexivity. }
  assert (Ha : attempts (mount opts_noretry) !! 0 =
                 Some {| at_request :=
                           build_request (startMemo (mount opts_noretry)) 0;
                         at_env := startMemo (mount opts_noretry);
                         aborted := false; stopped := false |}).
  { vm_compute. reflexivity. }
  assert (He : enabled (TransportError 0 "offline") (mount opts_noretry)
               = true).
  { vm_compute. reflexivity. }
  pose proof (C8_error_without_policy_is_terminal (mount opts_noretry) 0 _
                "offline" [VisibilityChange true; CallClose] _
                Hr Ha eq_refl He Hs) as R.
  split; [exact Hr|]. split; [exact Ha|]. split; [reflexivity|].
  split; [exact He|]. split; [exact Hs|].
  vm_compute in R. vm_compute. exact R.
Defined.

(** ** Page visibility *)

(** C4, as the code has it: with [pauseOnHidden], when the page becomes
    hidden the current controller is aborted and no attempt can call back
    any more, while the connection state, the observer calls, the retry
    count and the timers are left as they were (the state is not set to
    CLOSED); a pending timer that fires afterwards does nothing.  When the
    page becomes visible again, [start] sets the state to CONNECTING and
    makes a new attempt, the only one that can call back, and every pending
    timer is disarmed. *)
Theorem C4_hidden_aborts_and_visible_restarts s es s2 :
  reachable s ->
  pauseOnHidden (props s) = true ->
  steps any_event (handle (VisibilityChange true) s) es s2 ->
  pauseOnHidden (props s2) = true ->
  (forall c, controllerRef s = Some c ->
             signal_aborted c (handle (VisibilityChange true) s) = true) /\
  (forall c, live c (handle (VisibilityChange true) s) = false) /\
  readyState (handle (VisibilityChange true) s) = readyState s /\
  observed (handle (VisibilityChange true) s) = observed s /\
  retryCountRef (handle (VisibilityChange true) s) = retryCountRef s /\
  timers (handle (VisibilityChange true) s) = timers s /\
  (forall t, t ∈ timers s ->
     timer_callback t (handle (VisibilityChange true) s) =
     handle (VisibilityChange true) s) /\
  readyState (handle (VisibilityChange false) s2) = CONNECTING /\
  length (attempts (handle (VisibilityChange false) s2)) =
    S (length (attempts s2)) /\
  live (length (attempts s2)) (handle (VisibilityChange false) s2) = true /\
  (forall c, live c (handle (VisibilityChange false) s2) = true ->
             c = length (attempts s2)) /\
  retryCountRef (handle (VisibilityChange false) s2) = retryCountRef s2 /\
  (forall t, t ∈ timers (handle (VisibilityChange false) s2) ->
     timer_callback t (handle (VisibilityChange false) s2) =
     handle (VisibilityChange false) s2).
Proof.
  intros Hr Hp Hs Hp2. apply Inv_reachable in Hr.
  pose proof (Inv_handle (VisibilityChange true) s Hr) as H1.
  pose proof (Inv_steps _ _ _ _ H1 Hs) as H2.
  pose proof (inert_all_aborted _ (Inv_abort_current s Hr)
                (Inv_all_aborted s Hr)) as [Hi1 Hi2].
  simpl. unfold visibility_handler. rewrite Hp, Hp2.
  assert (Hf : readyState (abort_current s) = readyState s /\
               observed (abort_current s) = observed s /\
               retryCountRef (abort_current s) = retryCountRef s /\
               timers (abort_current s) = timers s).
  { destruct (abort_current_frame s) as (? & _ & _ & ? & _ & ? & ?). done. }
  destruct Hf as (Hf1 & Hf2 & Hf3 & Hf4).
  split.
  { intros c Hc. pose proof (Inv_all_aborted s Hr) as Hall.
    destruct Hr as (_ & I2 & _).
    destruct (lookup_lt_is_Some_2 _ _ (I2 c Hc)) as [a Ha].
    destruct (grows_abort_current s _ _ Ha) as (a' & Ha' & _).
    unfold signal_aborted. rewrite Ha'.
    apply (Forall_lookup_1 _ _ _ _ Hall Ha'). }
  split; [exact Hi1|]. split; [exact Hf1|]. split; [exact Hf2|].
  split; [exact Hf3|]. split; [exact Hf4|].
  split.
  { intros t Ht. apply timer_callback_aborted, Hi2. by rewrite Hf4. }
  split; [done|]. split; [apply length_start|]. split; [apply live_start|].
  split.
  { intros c Hc. apply (live_is_current _ _ (Inv_start _ _ H2)) in Hc.
    rewrite controllerRef_start in Hc. congruence. }
  split.
  { apply start_frame. }
  intros t Ht. rewrite timers_start in Ht.
  by apply timer_callback_aborted, start_cancels_timers.
Qed.

Lemma C4_hidden_visible_witness :
  reachable retry_pending /\
  pauseOnHidden (props retry_pending) = true /\
  steps any_event (handle (VisibilityChange true) retry_pending) [TimerFires 0]
    (exec [VisibilityChange true; TimerFires 0] retry_pending) /\
  pauseOnHidden (props (exec [VisibilityChange true; TimerFires 0]
                          retry_pending)) = true /\
  signal_aborted 0 (handle (VisibilityChange true) retry_pending) = true /\
  readyState (handle (VisibilityChange true) retry_pending) = CLOSED /\
  retryCountRef (handle (VisibilityChange true) retry_pending) = 1 /\
  readyState (exec [VisibilityChange true; TimerFires 0;
                    VisibilityChange false] retry_pending) = CONNECTING /\
  length (attempts (exec [VisibilityChange true; TimerFires 0;
                          VisibilityChange false] retry_pending)) = 2.
Proof.
  assert (Hr : reachable retry_pending).
  { exists opts_retry, [TransportError 0 "offline"].
    apply run_steps. vm_compute. reflexivity. }
  assert (Hs : steps any_event (handle (VisibilityChange true) retry_pending)
                 [TimerFires 0]
                 (exec [VisibilityChange true; TimerFires 0] retry_pending)).
  { apply run_steps. vm_compute. reflexivity. }
  assert (Hp : pauseOnHidden (props retry_pending) = true).
  { vm_compute. reflexivity. }
  assert (Hp2 : pauseOnHidden
                  (props (exec [VisibilityChange true; TimerFires 0]
                            retry_pending)) = true).
  { vm_compute. reflexivity. }
  pose proof (C4_hidden_aborts_and_visible_restarts retry_pending
                [TimerFires 0] _ Hr Hp Hs Hp2)
    as (A1 & _ & A3 & _ & A5 & _ & _ & A8 & A9 & _).
  specialize (A1 0).
  split; [exact Hr|]. split; [exact Hp|]. split; [exact Hs|].
  split; [exact Hp2|].
  vm_compute in A1, A3, A5, A8, A9. vm_compute.
  split; [exact (A1 eq_refl)|].
  split; [exact A3|]. split; [exact A5|]. split; [exact A8 | exact A9].
Defined.

(** C4 fails as stated: an open connection whose page becomes hidden keeps
    the state OPEN, although its attempt is aborted. *)
Lemma C4_hidden_leaves_state_open :
  run [TransportOpen 0 200] (mount opts_retry) = Some connected /\
  pauseOnHidden (props connected) = true /\
  readyState connected = OPEN /\
  signal_aborted 0 (handle (VisibilityChange true) connected) = true /\
  readyState (handle (VisibilityChange true) connected) = OPEN /\
  readyState (handle (VisibilityChange true) connected) <> CLOSED.
Proof. by_evaluation. Qed.

(** ** What [start] sends while its dependencies stay the same *)

(** As long as no render changes a dependency of [start], the memoised
    [start] is the one of the first render: whatever messages were
    delivered, [reconnect()] sends the headers of [init] alone. *)
Lemma reconnect_sends_init_headers o es s :
  steps (keeps_deps o) (mount o) es s ->
  cl_lastEventId (startMemo s) = "" /\
  exists a, attempts (reconnect s) !! length (attempts s) = Some a /\
            req_headers (at_request a) =
              from_option ri_headers ∅ (init (cl_options (startMemo s))).
Proof.
  intros Hs.
  destruct (DepsInv_steps o _ _ _ _ (DepsInv_mount o) Hs) as ([_ Hid] & _ & _).
  split; [exact Hid|]. eexists. split; [apply start_request|].
  cbn. unfold headersRecord. by rewrite Hid.
Qed.

(** * Further properties of the hook *)

(** ** More that [abort_current] and [start] leave alone *)

Lemma abort_current_keeps s :
  events (abort_current s) = events s /\
  props (abort_current s) = props s /\
  startMemo (abort_current s) = startMemo s.
Proof. unfold abort_current. by destruct (controllerRef s). Qed.

Lemma start_keeps env s :
  events (start env s) = events s /\
  props (start env s) = props s /\
  startMemo (start env s) = startMemo s.
Proof.
  unfold start; cbn.
  destruct (abort_current_keeps s) as (-> & -> & ->). done.
Qed.

Lemma events_handle e s :
  events (handle e s) = events s ++ messages_of [e].
Proof.
  pose proof (fun env x => proj1 (start_keeps env x)) as Hs.
  pose proof (fun x => proj1 (abort_current_keeps x)) as Ha.
  destruct e as [c r|c m|c err|c|i|h| | |o]; cbn [messages_of];
    rewrite ?app_nil_r; try (by frame_event Hs Ha); try reflexivity.
  cbn [handle]. unfold transport_error.
  destruct (attempts s !! c) as [a|]; [|done].
  unfold onerror. by destruct (retryIntervalMs (cl_options (at_env a))).
Qed.

Lemma props_handle e s : props (handle e s) = props_after (props s) e.
Proof.
  pose proof (fun env x => proj1 (proj2 (start_keeps env x))) as Hs.
  pose proof (fun x => proj1 (proj2 (abort_current_keeps x))) as Ha.
  destruct e as [c r|c m|c err|c|i|h| | |o]; cbn [props_after];
    try (by frame_event Hs Ha); try reflexivity.
  cbn [handle]. unfold transport_error.
  destruct (attempts s !! c) as [a|]; [|done].
  unfold onerror. by destruct (retryIntervalMs (cl_options (at_env a))).
Qed.

Lemma observed_handle e s :
  enabled e s = true ->
  observed (handle e s) = observed s ++ observer_call (props s) e.
Proof.
  pose proof (fun env x =>
                proj2 (proj2 (proj2 (proj2 (proj2 (start_frame env x)))))) as Hs.
  pose proof (fun x =>
                proj2 (proj2 (proj2 (proj2 (proj2 (proj2
                  (abort_current_frame x))))))) as Ha.
  intros He.
  destruct e as [c r|c m|c err|c|i|h| | |o]; cbn [observer_call];
    rewrite ?app_nil_r; try (by frame_event Hs Ha).
  - cbn. by destruct (onOpen (props s)); rewrite ?app_nil_r.
  - cbn. by destruct (onMessage (props s)); rewrite ?app_nil_r.
  - cbn [handle enabled] in *. unfold transport_error, live in *.
    destruct (attempts s !! c) as [a|]; [|discriminate].
    unfold onerror.
    destruct (retryIntervalMs (cl_options (at_env a))); cbn;
      by destruct (onError (props s)); rewrite ?app_nil_r.
  - cbn. by destruct (onClose (props s)); rewrite ?app_nil_r.
Qed.

(** ** The message history and the observers *)

(** The history [events] is append-only and complete: after a run it is the
    history before the run followed by the messages the run delivered, in
    the order of delivery; no event drops or reorders a message. *)
Theorem events_are_all_messages_in_order s es s' :
  steps any_event s es s' ->
  events s' = events s ++ messages_of es.
Proof.
  induction 1 as [s|s e es s' He _ _ IH]; [by rewrite app_nil_r|].
  rewrite IH, events_handle, <- app_assoc. f_equal.
  destruct e; reflexivity.
Qed.

Lemma events_are_all_messages_witness :
  steps any_event (mount opts_retry)
    [TransportOpen 0 200; TransportMessage 0 msg_with_id; CallReconnect;
     TransportMessage 1 msg_without_id; VisibilityChange true]
    (exec [TransportOpen 0 200; TransportMessage 0 msg_with_id; CallReconnect;
           TransportMessage 1 msg_without_id; VisibilityChange true]
       (mount opts_retry)) /\
  events (exec [TransportOpen 0 200; TransportMessage 0 msg_with_id;
                CallReconnect; TransportMessage 1 msg_without_id;
                VisibilityChange true] (mount opts_retry))
  = [msg_with_id; msg_without_id].
Proof.
  assert (H : steps any_event (mount opts_retry)
                [TransportOpen 0 200; TransportMessage 0 msg_with_id;
                 CallReconnect; TransportMessage 1 msg_without_id;
                 VisibilityChange true]
                (exec [TransportOpen 0 200; TransportMessage 0 msg_with_id;
                       CallReconnect; TransportMessage 1 msg_without_id;
                       VisibilityChange true] (mount opts_retry))).
  { apply run_steps. vm_compute. reflexivity. }
  pose proof (events_are_all_messages_in_order _ _ _ H) as R.
  split; [exact H|]. vm_compute in R. vm_compute. exact R.
Defined.

(** The observers are called for the transport callbacks and for nothing
    else: after a run, the observer calls are those before the run followed,
    in order, by one call for each open, message, error and close callback
    whose observer was supplied in the latest render before it.  Timers,
    visibility changes, [close()], [reconnect()] and renders call no
    observer. *)
Theorem observers_see_exactly_the_callbacks s es s' :
  steps any_event s es s' ->
  observed s' = observed s ++ observer_calls (props s) es.
Proof.
  induction 1 as [s|s e es s' He _ _ IH]; [by rewrite app_nil_r|].
  rewrite IH, (observed_handle e s He), props_handle, <- app_assoc.
  reflexivity.
Qed.

Lemma observers_see_exactly_the_callbacks_witness :
  steps any_event (mount opts_retry)
    [TransportOpen 0 200; Render opts_init_quiet; TransportMessage 1 msg_with_id;
     VisibilityChange true; VisibilityChange false; TransportError 2 "offline";
     TimerFires 0; CallClose]
    (exec [TransportOpen 0 200; Render opts_init_quiet;
           TransportMessage 1 msg_with_id; VisibilityChange true;
           VisibilityChange false; TransportError 2 "offline"; TimerFires 0;
           CallClose] (mount opts_retry)) /\
  observed (exec [TransportOpen 0 200; Render opts_init_quiet;
                  TransportMessage 1 msg_with_id; VisibilityChange true;
                  VisibilityChange false; TransportError 2 "offline";
                  TimerFires 0; CallClose] (mount opts_retry))
  = [ObsOpen 200].
Proof.
  assert (H : steps any_event (mount opts_retry)
                [TransportOpen 0 200; Render opts_init_quiet;
                 TransportMessage 1 msg_with_id; VisibilityChange true;
                 VisibilityChange false; TransportError 2 "offline";
                 TimerFires 0; CallClose]
                (exec [TransportOpen 0 200; Render opts_init_quiet;
                       TransportMessage 1 msg_with_id; VisibilityChange true;
                       VisibilityChange false; TransportError 2 "offline";
                       TimerFires 0; CallClose] (mount opts_retry))).
  { apply run_steps. vm_compute. reflexivity. }
  pose proof (observers_see_exactly_the_callbacks _ _ _ H) as R.
  split; [exact H|]. vm_compute in R. vm_compute. exact R.
Defined.

(** ** Bounds on the delay *)

(** With a positive base interval (or a zero one while the retry count is
    below 1023) the delay never decreases from one failure to the next,
    never exceeds the cap, and is never below the smaller of the base
    interval and the cap; this includes the failures after which the
    product overflows. *)
Theorem delay_grows_up_to_cap base cap n :
  (0 < base)%Z \/ (base = 0%Z /\ n < 1023) ->
  Num_le (delay base cap n) (delay base cap (S n)) /\
  Num_le (delay base cap n) (from_option Fin Infinity cap) /\
  Num_le (Math_min (Fin base) (from_option Fin Infinity cap)) (delay base cap n).
Proof.
  intros Hb.
  assert (1 <= 2 ^ Z.of_nat n)%Z as H1
    by (apply Z.pow_le_mono_r with (b := 0%Z); lia).
  assert (2 ^ Z.of_nat (S n) = 2 * 2 ^ Z.of_nat n)%Z as H2
    by (rewrite Nat2Z.inj_succ, Z.pow_succ_r; lia).
  unfold delay, scaled_interval. rewrite H2.
  remember (2 ^ Z.of_nat n)%Z as p. remember (2 ^ 1024)%Z as B.
  destruct Hb as [Hb|[-> Hn]].
  - destruct (Z.eqb_spec base 0) as [->|_]; [lia|].
    rewrite Z.abs_eq by lia.
    destruct (Z.ltb_spec 0 base); [|lia].
    assert (base <= base * p)%Z by nia.
    assert (base * (2 * p) = 2 * (base * p))%Z as -> by lia.
    remember (base * p)%Z as q.
    destruct (Z.ltb_spec q B), (Z.ltb_spec (2 * q) B);
      destruct cap as [c|]; cbn; lia.
  - cbn. destruct (Nat.leb_spec n 1023); [|lia].
    destruct (Nat.leb_spec n 1022); [|lia].
    destruct cap as [c|]; cbn; lia.
Qed.

Lemma delay_grows_up_to_cap_witness :
  ((0 < 1000)%Z \/ (1000%Z = 0%Z /\ 1014 < 1023)) /\
  Num_le (delay 1000 None 1014) (delay 1000 None 1015) /\
  Num_le (delay 1000 None 1014) Infinity /\
  Num_le (Fin 1000) (delay 1000 None 1014).
Proof.
  assert (Hb : (0 < 1000)%Z) by lia.
  split; [left; exact Hb|].
  exact (delay_grows_up_to_cap 1000 None 1014 (or_introl Hb)).
Defined.

(** ** The request of an attempt *)

(** The new attempt of [start]: made with the closure's request, for the
    controller created in the same call. *)
Lemma start_new_attempt env s :
  attempts (start env s) =
  attempts (abort_current s) ++
    [{| at_request := build_request env (length (attempts s));
        at_env := env; aborted := false; stopped := false |}].
Proof. unfold start; cbn. by rewrite length_abort_current. Qed.

(** Credentials of the request [start] makes: credentials given in [init]
    win over [withCredentials]; [withCredentials] fills in "include" only
    when [init] gives none or the empty string; without [withCredentials]
    the credentials of [init] are passed as they are. *)
Theorem start_request_credentials env s :
  exists a,
    attempts (start env s) !! length (attempts s) = Some a /\
    req_credentials (at_request a) =
      match init (cl_options env) ≫= ri_credentials with
      | Some (String c cs) => Some (String c cs)
      | other =>
          if withCredentials (cl_options env) then Some "include" else other
      end.
Proof.
  eexists. split; [apply start_request|]. cbn. unfold request_credentials.
  destruct (init (cl_options env) ≫= ri_credentials) as [[|c cs]|];
    by destruct (withCredentials (cl_options env)).
Qed.

(** Headers of the request [start] makes: every header of [init] under
    another name than [Last-Event-ID] is passed unchanged, and none is
    added; [Last-Event-ID] is the [lastEventId] the closure captured when
    that is not empty, and whatever [init] has under that name otherwise. *)
Theorem start_request_headers env s :
  exists a,
    attempts (start env s) !! length (attempts s) = Some a /\
    req_url (at_request a) = url (cl_options env) /\
    req_signal (at_request a) = length (attempts s) /\
    (forall k, k <> "Last-Event-ID" ->
       req_headers (at_request a) !! k = existing_headers env !! k) /\
    req_headers (at_request a) !! "Last-Event-ID" =
      match cl_lastEventId env with
      | "" => existing_headers env !! "Last-Event-ID"
      | id => Some id
      end.
Proof.
  eexists. split; [apply start_request|]. cbn.
  split; [done|]. split; [done|]. unfold headersRecord, existing_headers.
  destruct (cl_lastEventId env) as [|c cs]; cbn; [done|].
  split; [|by rewrite lookup_insert_eq].
  intros k Hk. by rewrite lookup_insert_ne.
Qed.

Lemma start_request_headers_witness :
  exists a,
    attempts (start {| cl_options := opts_init; cl_lastEventId := "42" |}
                connected) !! 1 = Some a /\
    req_url (at_request a) = "/api/stream" /\
    req_signal (at_request a) = 1 /\
    req_headers (at_request a) !! "x-auth-token" = Some "abc123" /\
    req_headers (at_request a) !! "Last-Event-ID" = Some "42".
Proof.
  destruct (start_request_headers
              {| cl_options := opts_init; cl_lastEventId := "42" |} connected)
    as (a & Ha & Hu & Hs & Hk & Hl).
  specialize (Hk "x-auth-token" ltac:(discriminate)).
  exists a. vm_compute in Ha, Hu, Hs, Hk, Hl. vm_compute.
  split; [exact Ha|]. split; [exact Hu|]. split; [exact Hs|].
  split; [exact Hk | exact Hl].
Defined.

(** Every attempt keeps the request it was made with: the request built
    from its own closure, with its own controller as signal. *)
Lemma request_of_attempt s c a :
  reachable s -> attempts s !! c = Some a ->
  at_request a = build_request (at_env a) c.
Proof.
  intros (o & es & Hs). revert c a.
  assert (Hgen : forall s0, (forall c a, attempts s0 !! c = Some a ->
                               at_request a = build_request (at_env a) c) ->
                 steps any_event s0 es s ->
                 forall c a, attempts s !! c = Some a ->
                             at_request a = build_request (at_env a) c).
  { clear Hs. intros s0 H0 Hs. induction Hs as [s|s e es s' He _ _ IH]; [done|].
    apply IH. clear IH.
    assert (Hab : forall x, (forall c a, attempts x !! c = Some a ->
                    at_request a = build_request (at_env a) c) ->
                  forall c a, attempts (abort_current x) !! c = Some a ->
                    at_request a = build_request (at_env a) c).
    { intros x Hx c a. unfold abort_current.
      destruct (controllerRef x) as [j|]; [|apply Hx]. cbn.
      rewrite list_lookup_alter. case_decide; [|apply Hx]. subst.
      destruct (attempts x !! c) as [a0|] eqn:E; [|done].
      intros [= <-]. cbn. by apply Hx. }
    assert (Hst : forall env x, (forall c a, attempts x !! c = Some a ->
                    at_request a = build_request (at_env a) c) ->
                  forall c a, attempts (start env x) !! c = Some a ->
                    at_request a = build_request (at_env a) c).
    { intros env x Hx c a. rewrite start_new_attempt.
      intros Hl. apply lookup_app_Some in Hl as [Hl|[Hge Hl]].
      - by apply (Hab x Hx).
      - rewrite length_abort_current in Hge, Hl.
        destruct (c - length (attempts x)) as [|n] eqn:E; [|done].
        injection Hl as <-. cbn. f_equal. lia. }
    destruct e as [c r|c m|c err|c|i|h| | |o']; cbn [handle]; try exact H0.
    - unfold transport_error. destruct (attempts s !! c) as [a|] eqn:Ha; [|done].
      unfold onerror. destruct (retryIntervalMs (cl_options (at_env a)));
        [exact H0|]. cbn. intros j a'. rewrite list_lookup_alter.
      case_decide; [|apply H0]. subst. rewrite Ha. intros [= <-]. cbn.
      by apply H0.
    - destruct (timers s !! i) as [t|]; [|done].
      unfold timer_callback. case_match; [exact H0|]. by apply Hst.
    - unfold visibility_handler. destruct (pauseOnHidden (props s)); [|done].
      destruct h; [by apply Hab | by apply Hst].
    - unfold close. cbn. by apply Hab.
    - by apply Hst.
    - unfold render. case_bool_decide; [exact H0|].
      apply Hst. by apply (Hab (set_startMemo _ (set_props o' s))). }
  apply (Hgen (mount o)); [|exact Hs].
  intros c a. unfold mount. rewrite start_new_attempt. cbn.
  destruct c; [|done]. by intros [= <-].
Qed.

(** While no render changes a dependency of [start], every request the hook
    makes goes to the url of the first render and carries the headers of
    its closure's [init] alone: the hook adds no [Last-Event-ID], whatever
    messages it has received. *)
Theorem requests_without_resumption_header o es s c a :
  steps (keeps_deps o) (mount o) es s ->
  attempts s !! c = Some a ->
  req_url (at_request a) = url o /\
  req_signal (at_request a) = c /\
  req_headers (at_request a) = existing_headers (at_env a).
Proof.
  intros Hs Ha.
  assert (Hr : reachable s).
  { exists o, es. revert Hs. generalize (mount o).
    induction 1; econstructor; eauto. }
  rewrite (request_of_attempt s c a Hr Ha). cbn.
  destruct (DepsInv_steps o _ _ _ _ (DepsInv_mount o) Hs) as (_ & H2 & _).
  destruct (Forall_lookup_1 _ _ _ _ H2 Ha) as [Hd Hid].
  unfold start_deps in Hd. injection Hd as Hu _.
  split; [done|]. split; [done|].
  unfold headersRecord, existing_headers. by rewrite Hid.
Qed.

Lemma requests_without_resumption_header_witness :
  steps (keeps_deps opts_retry) (mount opts_retry)
    [TransportOpen 0 200; TransportMessage 0 msg_with_id; Render opts_retry;
     TransportError 0 "offline"; TimerFires 0]
    (exec [TransportOpen 0 200; TransportMessage 0 msg_with_id;
           Render opts_retry; TransportError 0 "offline"; TimerFires 0]
       (mount opts_retry)) /\
  lastEventId (exec [TransportOpen 0 200; TransportMessage 0 msg_with_id;
                     Render opts_retry; TransportError 0 "offline";
                     TimerFires 0] (mount opts_retry)) = "42" /\
  (exists a,
     attempts (exec [TransportOpen 0 200; TransportMessage 0 msg_with_id;
                     Render opts_retry; TransportError 0 "offline";
                     TimerFires 0] (mount opts_retry)) !! 1 = Some a /\
     req_url (at_request a) = "/api/updates" /\
     req_signal (at_request a) = 1 /\
     req_headers (at_request a) = ∅).
Proof.
  assert (H : steps (keeps_deps opts_retry) (mount opts_retry)
                [TransportOpen 0 200; TransportMessage 0 msg_with_id;
                 Render opts_retry; TransportError 0 "offline"; TimerFires 0]
                (exec [TransportOpen 0 200; TransportMessage 0 msg_with_id;
                       Render opts_retry; TransportError 0 "offline";
                       TimerFires 0] (mount opts_retry))).
  { apply run_if_steps. vm_compute. reflexivity. }
  split; [exact H|]. split; [vm_compute; reflexivity|].
  eexists. split; [vm_compute; reflexivity|].
  pose proof (requests_without_resumption_header opts_retry _ _ 1 _ H
                ltac:(vm_compute; reflexivity)) as R.
  vm_compute in R. vm_compute. exact R.
Defined.

(** ** Renders *)

(** A render that changes no dependency of [start] (only observers or
    [pauseOnHidden], say) leaves the connection alone: no attempt is made or
    aborted, no timer touched, the state and the memoised [start] kept; the
    next callback of the running attempt goes to the observer of the new
    options. *)
Theorem render_with_same_deps_keeps_connection o s c m :
  start_deps o = start_deps (cl_options (startMemo s)) ->
  attempts (render o s) = attempts s /\
  timers (render o s) = timers s /\
  controllerRef (render o s) = controllerRef s /\
  readyState (render o s) = readyState s /\
  retryCountRef (render o s) = retryCountRef s /\
  startMemo (render o s) = startMemo s /\
  enabled (TransportMessage c m) (render o s)
    = enabled (TransportMessage c m) s /\
  observed (handle (TransportMessage c m) (render o s)) =
    observed s ++ (if onMessage o then [ObsMessage m] else []).
Proof.
  intros Hd. unfold render. rewrite bool_decide_eq_true_2 by done. cbn.
  repeat (split; [done|]).
  by destruct (onMessage o); rewrite ?app_nil_r.
Qed.

Lemma render_with_same_deps_witness :
  start_deps opts_init_quiet = start_deps (cl_options (startMemo (mount opts_init))) /\
  attempts (render opts_init_quiet (mount opts_init)) = attempts (mount opts_init) /\
  readyState (render opts_init_quiet (mount opts_init)) = CONNECTING /\
  observed (handle (TransportMessage 0 msg_with_id) (mount opts_init))
    = [ObsMessage msg_with_id] /\
  observed (handle (TransportMessage 0 msg_with_id)
              (render opts_init_quiet (mount opts_init))) = [].
Proof.
  assert (Hd : start_deps opts_init_quiet =
               start_deps (cl_options (startMemo (mount opts_init)))).
  { vm_compute. reflexivity. }
  pose proof (render_with_same_deps_keeps_connection opts_init_quiet
                (mount opts_init) 0 msg_with_id Hd)
    as (A1 & _ & _ & A4 & _ & _ & _ & A8).
  split; [exact Hd|]. split; [exact A1|].
  vm_compute in A4, A8. vm_compute.
  split; [exact A4|]. split; [reflexivity | exact A8].
Defined.

(** A render that changes a dependency of [start] restarts the connection
    with the new options: the controller that was current is aborted, the
    new attempt is the only one that can call back, its request goes to the
    new url, and it carries the [lastEventId] of that render as
    [Last-Event-ID] when that is not empty; the retry count is kept. *)
Theorem render_with_new_deps_restarts o s :
  reachable s ->
  start_deps (cl_options (startMemo s)) <> start_deps o ->
  readyState (render o s) = CONNECTING /\
  length (attempts (render o s)) = S (length (attempts s)) /\
  (forall c, controllerRef s = Some c -> signal_aborted c (render o s) = true) /\
  (forall c, live c (render o s) = true <-> c = length (attempts s)) /\
  retryCountRef (render o s) = retryCountRef s /\
  startMemo (render o s) =
    {| cl_options := o; cl_lastEventId := lastEventId s |} /\
  exists a,
    attempts (render o s) !! length (attempts s) = Some a /\
    req_url (at_request a) = url o /\
    req_headers (at_request a) !! "Last-Event-ID" =
      match lastEventId s with
      | "" => from_option ri_headers ∅ (init o) !! "Last-Event-ID"
      | id => Some id
      end.
Proof.
  intros Hr Hd. apply Inv_reachable in Hr.
  unfold render. rewrite bool_decide_eq_false_2 by done.
  set (env := {| cl_options := o; cl_lastEventId := lastEventId _ |}).
  set (s1 := abort_current (set_startMemo env (set_props o s))).
  assert (H0 : Inv (set_startMemo env (set_props o s))) by exact Hr.
  assert (H1 : Inv s1) by (by apply Inv_abort_current).
  assert (Hl : length (attempts s1) = length (attempts s)).
  { unfold s1. by rewrite length_abort_current. }
  assert (Hc : controllerRef s1 = controllerRef s).
  { unfold s1. by rewrite controllerRef_abort_current. }
  split; [apply start_frame|].
  split; [by rewrite length_start, Hl|].
  split.
  { intros c Hcs. apply start_aborts_current; [done | by rewrite Hc]. }
  split.
  { intros c. split.
    - intros Hlive. apply (live_is_current _ _ (Inv_start env _ H1)) in Hlive.
      rewrite controllerRef_start, Hl in Hlive. congruence.
    - intros ->. rewrite <- Hl. apply live_start. }
  split.
  { destruct (start_frame env s1) as (_ & _ & _ & -> & _).
    unfold s1. by destruct (abort_current_frame
                              (set_startMemo env (set_props o s)))
      as (_ & _ & _ & -> & _). }
  split.
  { destruct (start_keeps env s1) as (_ & _ & ->). unfold s1.
    by destruct (abort_current_keeps (set_startMemo env (set_props o s)))
      as (_ & _ & ->). }
  eexists. rewrite <- Hl. split; [apply start_request|]. cbn.
  split; [done|]. unfold headersRecord; cbn.
  destruct (lastEventId s) as [|x xs]; cbn; [done|].
  by rewrite lookup_insert_eq.
Qed.

Lemma render_with_new_deps_witness :
  reachable (exec [TransportOpen 0 200; TransportMessage 0 msg_with_id]
               (mount opts_retry)) /\
  start_deps (cl_options (startMemo
     (exec [TransportOpen 0 200; TransportMessage 0 msg_with_id]
        (mount opts_retry)))) <> start_deps opts_init /\
  readyState (render opts_init
     (exec [TransportOpen 0 200; TransportMessage 0 msg_with_id]
        (mount opts_retry))) = CONNECTING /\
  signal_aborted 0 (render opts_init
     (exec [TransportOpen 0 200; TransportMessage 0 msg_with_id]
        (mount opts_retry))) = true /\
  exists a,
    attempts (render opts_init
      (exec [TransportOpen 0 200; TransportMessage 0 msg_with_id]
         (mount opts_retry))) !! 1 = Some a /\
    req_url (at_request a) = "/api/stream" /\
    req_headers (at_request a) !! "Last-Event-ID" = Some "42".
Proof.
  assert (Hr : reachable (exec [TransportOpen 0 200;
                                TransportMessage 0 msg_with_id]
                            (mount opts_retry))).
  { exists opts_retry, [TransportOpen 0 200; TransportMessage 0 msg_with_id].
    apply run_steps. vm_compute. reflexivity. }
  assert (Hd : start_deps (cl_options (startMemo
                 (exec [TransportOpen 0 200; TransportMessage 0 msg_with_id]
                    (mount opts_retry)))) <> start_deps opts_init).
  { vm_compute. discriminate. }
  pose proof (render_with_new_deps_restarts opts_init _ Hr Hd)
    as (A1 & _ & A3 & _ & _ & _ & a & Ha & Hu & Hh).
  specialize (A3 0).
  split; [exact Hr|]. split; [exact Hd|].
  split; [exact A1|]. split; [exact (A3 ltac:(vm_compute; reflexivity))|].
  exists a. vm_compute in Ha, Hu, Hh. vm_compute.
  split; [exact Ha|]. split; [exact Hu | exact Hh].
Defined.

(** ** The current controller *)

(** The current controller is always the one created last: [controllerRef]
    is set from the first [start] on and only [start] changes it. *)
Theorem current_controller_is_last s :
  reachable s ->
  exists n, length (attempts s) = S n /\ controllerRef s = Some n.
Proof.
  intros (o & es & Hs).
  assert (Hst : forall env x, exists n,
            length (attempts (start env x)) = S n /\
            controllerRef (start env x) = Some n).
  { intros env x. exists (length (attempts x)).
    by rewrite length_start, controllerRef_start. }
  assert (H0 : exists n, length (attempts (mount o)) = S n /\
                         controllerRef (mount o) = Some n) by apply Hst.
  revert H0 Hs. generalize (mount o). intros s0 H0 Hs.
  induction Hs as [s|s e es s' He _ _ IH]; [done|]. apply IH. clear IH.
  assert (Hab : exists n, length (attempts (abort_current s)) = S n /\
                          controllerRef (abort_current s) = Some n).
  { by rewrite length_abort_current, controllerRef_abort_current. }
  destruct e as [c r|c m|c err|c|i|h| | |o']; cbn [handle]; try exact H0.
  - unfold transport_error. destruct (attempts s !! c) as [a|]; [|done].
    unfold onerror. destruct (retryIntervalMs (cl_options (at_env a)));
      [exact H0|]. cbn. by rewrite length_alter.
  - destruct (timers s !! i) as [t|]; [|done].
    unfold timer_callback. case_match; [exact H0 | apply Hst].
  - unfold visibility_handler. destruct (pauseOnHidden (props s)); [|done].
    destruct h; [exact Hab | apply Hst].
  - exact Hab.
  - apply Hst.
  - unfold render. case_bool_decide; [exact H0 | apply Hst].
Qed.

Lemma current_controller_is_last_witness :
  reachable retry_pending /\
  exists n, length (attempts retry_pending) = S n /\
            controllerRef retry_pending = Some n.
Proof.
  assert (Hr : reachable retry_pending).
  { exists opts_retry, [TransportError 0 "offline"].
    apply run_steps. vm_compute. reflexivity. }
  split; [exact Hr | exact (current_controller_is_last _ Hr)].
Defined.

(** ** Retry timers *)

(** A timer whose attempt has been superseded does nothing when it fires:
    it is removed and nothing else changes. *)
Theorem stale_timer_does_nothing s i t :
  reachable s ->
  timers s !! i = Some t ->
  controllerRef s <> Some (tm_controller t) ->
  handle (TimerFires i) s = set_timers (delete i (timers s)) s.
Proof.
  intros Hr Ht Hc. apply Inv_reachable in Hr. destruct Hr as (I1 & _ & I3).
  cbn [handle]. rewrite Ht.
  destruct (I3 t (list_elem_of_lookup_2 _ _ _ Ht)) as (a & Ha & _).
  apply timer_callback_aborted. unfold signal_aborted; cbn. rewrite Ha.
  destruct (aborted a) eqn:E; [done|]. by specialize (I1 _ _ Ha E).
Qed.

Lemma stale_timer_does_nothing_witness :
  reachable (reconnect retry_pending) /\
  timers (reconnect retry_pending) !! 0 =
    Some {| tm_delay := Fin 1000; tm_controller := 0;
            tm_start := startMemo (mount opts_retry) |} /\
  controllerRef (reconnect retry_pending) <> Some 0 /\
  handle (TimerFires 0) (reconnect retry_pending) =
    set_timers [] (reconnect retry_pending).
Proof.
  assert (Hr : reachable (reconnect retry_pending)).
  { exists opts_retry, [TransportError 0 "offline"; CallReconnect].
    apply run_steps. vm_compute. reflexivity. }
  assert (Ht : timers (reconnect retry_pending) !! 0 =
                 Some {| tm_delay := Fin 1000; tm_controller := 0;
                         tm_start := startMemo (mount opts_retry) |}).
  { vm_compute. reflexivity. }
  assert (Hc : controllerRef (reconnect retry_pending) <> Some 0).
  { vm_compute. discriminate. }
  split; [exact Hr|]. split; [exact Ht|]. split; [exact Hc|].
  exact (stale_timer_does_nothing _ 0 _ Hr Ht Hc).
Defined.

(** The scheduled retry reconnects: when an attempt with a retry policy
    fails and its timer fires before anything else happens, the failed
    attempt is aborted and a new attempt is made with the same [start]
    closure; the state is CONNECTING, the retry count one higher than
    before the error, and the timers pending before the error are as they
    were. *)
Theorem retry_timer_reconnects s c a err base :
  reachable s ->
  attempts s !! c = Some a ->
  retryIntervalMs (cl_options (at_env a)) = Some base ->
  enabled (TransportError c err) s = true ->
  readyState (exec [TransportError c err; TimerFires (length (timers s))] s)
    = CONNECTING /\
  length (attempts (exec [TransportError c err;
                          TimerFires (length (timers s))] s))
    = S (length (attempts s)) /\
  signal_aborted c (exec [TransportError c err;
                          TimerFires (length (timers s))] s) = true /\
  (exists a',
     attempts (exec [TransportError c err;
                     TimerFires (length (timers s))] s)
       !! length (attempts s) = Some a' /\
     at_env a' = at_env a /\ aborted a' = false /\ stopped a' = false) /\
  retryCountRef (exec [TransportError c err;
                       TimerFires (length (timers s))] s)
    = S (retryCountRef s) /\
  timers (exec [TransportError c err; TimerFires (length (timers s))] s)
    = timers s.
Proof.
  intros Hr Ha Hp He. apply Inv_reachable in Hr.
  pose proof (live_is_current s c Hr He) as Hc.
  unfold exec; cbn [fold_left]. cbn [handle]. unfold transport_error, onerror.
  rewrite Ha, Hp. cbn [timers set_timers].
  rewrite list_lookup_middle by done. rewrite delete_middle, app_nil_r.
  lazymatch goal with
  | |- context [timer_callback ?x ?y] => set (s1 := y); set (t := x)
  end.
  assert (H1 : Inv s1) by exact Hr.
  assert (Hna : signal_aborted (tm_controller t) s1 = false).
  { unfold signal_aborted; cbn. rewrite Ha. cbn in He. unfold live in He.
    rewrite Ha in He. by destruct (aborted a). }
  assert (timer_callback t s1 = start (at_env a) s1) as ->.
  { unfold timer_callback. by rewrite Hna. }
  split; [apply start_frame|].
  split; [exact (length_start (at_env a) s1)|].
  split; [by apply start_aborts_current|].
  split.
  { eexists. split; [exact (start_request (at_env a) s1)|]. done. }
  split.
  { destruct (start_frame (at_env a) s1) as (_ & _ & _ & -> & _). cbn. lia. }
  exact (timers_start (at_env a) s1).
Qed.

Lemma retry_timer_reconnects_witness :
  reachable connected /\
  (exists a, attempts connected !! 0 = Some a /\
             retryIntervalMs (cl_options (at_env a)) = Some 1000%Z) /\
  enabled (TransportError 0 "offline") connected = true /\
  readyState (exec [TransportError 0 "offline"; TimerFires 0] connected)
    = CONNECTING /\
  length (attempts (exec [TransportError 0 "offline"; TimerFires 0] connected))
    = 2 /\
  signal_aborted 0 (exec [TransportError 0 "offline"; TimerFires 0] connected)
    = true /\
  retryCountRef (exec [TransportError 0 "offline"; TimerFires 0] connected)
    = 1.
Proof.
  assert (Hr : reachable connected).
  { exists opts_retry, [TransportOpen 0 200].
    apply run_steps. vm_compute. reflexivity. }
  assert (He : enabled (TransportError 0 "offline") connected = true).
  { vm_compute. reflexivity. }
  pose proof (retry_timer_reconnects connected 0 _ "offline" 1000 Hr
                ltac:(vm_compute; reflexivity) ltac:(vm_compute; reflexivity)
                He) as (A1 & A2 & A3 & _ & A5 & _).
  split; [exact Hr|].
  split; [eexists; split; vm_compute; reflexivity|].
  split; [exact He|].
  vm_compute in A1, A2, A3, A5. vm_compute.
  split; [exact A1|]. split; [exact A2|]. split; [exact A3 | exact A5].
Defined.

(** One restart per failure: when a timer whose controller is not aborted
    fires, its [start] disarms every other pending timer. *)
Theorem fired_timer_disarms_the_others s i t t' :
  reachable s ->
  timers s !! i = Some t ->
  signal_aborted (tm_controller t) s = false ->
  t' ∈ timers (handle (TimerFires i) s) ->
  length (attempts (handle (TimerFires i) s)) = S (length (attempts s)) /\
  timer_callback t' (handle (TimerFires i) s) = handle (TimerFires i) s.
Proof.
  intros Hr Ht Hna Ht'. apply Inv_reachable in Hr.
  assert (Hf : handle (TimerFires i) s =
               start (tm_start t) (set_timers (delete i (timers s)) s)).
  { cbn [handle]. rewrite Ht. unfold timer_callback.
    change (signal_aborted (tm_controller t)
              (set_timers (delete i (timers s)) s))
      with (signal_aborted (tm_controller t) s).
    by rewrite Hna. }
  rewrite Hf in *.
  assert (H1 : Inv (set_timers (delete i (timers s)) s)).
  { destruct Hr as (I1 & I2 & I3). split; [|split]; [done | done |].
    intros x Hx. apply I3. cbn in Hx. by eapply list_elem_of_delete_inv. }
  split; [exact (length_start _ (set_timers (delete i (timers s)) s))|].
  apply timer_callback_aborted. rewrite timers_start in Ht'.
  by apply start_cancels_timers.
Qed.

Lemma fired_timer_disarms_the_others_witness :
  reachable (exec [TransportError 0 "offline"; TransportError 0 "offline"]
               (mount opts_retry)) /\
  length (timers (exec [TransportError 0 "offline"; TransportError 0 "offline"]
                    (mount opts_retry))) = 2 /\
  length (attempts
            (exec [TransportError 0 "offline"; TransportError 0 "offline";
                   TimerFires 0] (mount opts_retry))) = 2 /\
  timer_callback
    {| tm_delay := Fin 2000; tm_controller := 0;
       tm_start := startMemo (mount opts_retry) |}
    (exec [TransportError 0 "offline"; TransportError 0 "offline";
           TimerFires 0] (mount opts_retry)) =
  exec [TransportError 0 "offline"; TransportError 0 "offline";
        TimerFires 0] (mount opts_retry).
Proof.
  assert (Hr : reachable (exec [TransportError 0 "offline";
                                TransportError 0 "offline"]
                            (mount opts_retry))).
  { exists opts_retry, [TransportError 0 "offline"; TransportError 0 "offline"].
    apply run_steps. vm_compute. reflexivity. }
  assert (Ht : timers (exec [TransportError 0 "offline";
                             TransportError 0 "offline"] (mount opts_retry))
               !! 0 = Some {| tm_delay := Fin 1000; tm_controller := 0;
                              tm_start := startMemo (mount opts_retry) |}).
  { vm_compute. reflexivity. }
  assert (Hna : signal_aborted 0
                  (exec [TransportError 0 "offline";
                         TransportError 0 "offline"] (mount opts_retry))
                = false).
  { vm_compute. reflexivity. }
  assert (Ht' : {| tm_delay := Fin 2000; tm_controller := 0;
                   tm_start := startMemo (mount opts_retry) |}
                ∈ timers (handle (TimerFires 0)
                            (exec [TransportError 0 "offline";
                                   TransportError 0 "offline"]
                               (mount opts_retry)))).
  { vm_compute. apply list_elem_of_here. }
  pose proof (fired_timer_disarms_the_others _ 0 _ _ Hr Ht Hna Ht')
    as [A1 A2].
  split; [exact Hr|]. split; [vm_compute; reflexivity|].
  vm_compute in A1, A2. vm_compute. split; [exact A1 | exact A2].
Defined.



(** ** Unmount *)

Lemma detached_step s e :
  inert s -> enabled e s = true -> detached e s = true ->
  inert (handle e s) /\ set_timers [] (handle e s) = set_timers [] s /\
  exists i, e = TimerFires i.
Proof.
  intros Hi He Hd.
  destruct (inert_handle e s Hi He) as (Hi' & _).
  { destruct e; try done. }
  split; [exact Hi'|]. destruct Hi as [H1 H2].
  destruct e as [c r|c m|c err|c|i|h| | |o]; cbn in He, Hd;
    try (rewrite H1 in He; discriminate); try discriminate.
  split; [|by eexists].
  apply bool_decide_eq_true in He.
  destruct (lookup_lt_is_Some_2 _ _ He) as [t Ht]. cbn [handle]. rewrite Ht.
  rewrite timer_callback_aborted; [done|].
  apply (H2 t). by eapply list_elem_of_lookup_2.
Qed.

Lemma detached_steps u es s' :
  inert u -> steps detached u es s' ->
  set_timers [] s' = set_timers [] u /\ timers_fired es = length es /\
  inert s'.
Proof.
  intros Hi Hs. induction Hs as [s|s e es s' He Hd _ IH]; [done|].
  destruct (detached_step s e Hi He Hd) as (Hi' & Heq & i & ->).
  destruct (IH Hi') as (A & B & C).
  split; [by rewrite A|]. split; [cbn; by rewrite B | done].
Qed.

(** After the unmount cleanup the hook is silent: no transport callback is
    enabled, so whatever happens is a timer firing, and a timer that fires
    is only removed.  No observer is called, no state is set and no attempt
    is made after unmount. *)
Theorem unmount_silences_the_hook s es s' :
  reachable s ->
  steps detached (unmount s) es s' ->
  set_timers [] s' = set_timers [] (unmount s) /\
  timers_fired es = length es /\
  (forall c, live c s' = false).
Proof.
  intros Hr Hs. apply Inv_reachable in Hr.
  assert (Hi : inert (unmount s)).
  { apply inert_all_aborted;
      [by apply Inv_abort_current | by apply Inv_all_aborted]. }
  destruct (detached_steps _ _ _ Hi Hs) as (A & B & [C _]). done.
Qed.

Lemma unmount_silences_the_hook_witness :
  reachable retry_pending /\
  steps detached (unmount retry_pending) [TimerFires 0]
    (exec [TimerFires 0] (unmount retry_pending)) /\
  set_timers [] (exec [TimerFires 0] (unmount retry_pending))
    = set_timers [] (unmount retry_pending) /\
  enabled (TransportOpen 0 200) (unmount retry_pending) = false /\
  length (attempts (exec [TimerFires 0] (unmount retry_pending))) = 1.
Proof.
  assert (Hr : reachable retry_pending).
  { exists opts_retry, [TransportError 0 "offline"].
    apply run_steps. vm_compute. reflexivity. }
  assert (Hs : steps detached (unmount retry_pending) [TimerFires 0]
                 (exec [TimerFires 0] (unmount retry_pending))).
  { apply run_if_steps. vm_compute. reflexivity. }
  pose proof (unmount_silences_the_hook _ _ _ Hr Hs) as (A & _ & _).
  split; [exact Hr|]. split; [exact Hs|]. split; [exact A|].
  vm_compute. split; reflexivity.
Defined.

(** * The earlier drafts *)

Lemma draft_run_steps wh es :
  forall s s', Draft.run wh es s = Some s' ->
               Draft.steps wh (fun _ _ => true) s es s'.
Proof.
  induction es as [|e es IH]; intros s s' H; cbn in H.
  - injection H as <-. constructor.
  - destruct (Draft.enabled e s) eqn:He; [|discriminate].
    econstructor; [exact He | reflexivity | by apply IH].
Qed.

(** Aborting the only attempt that can be live leaves none. *)
Lemma draft_abort_all (l : list Draft.Attempt) c j a :
  (forall i x, l !! i = Some x -> Draft.aborted x = false -> i = c) ->
  alter Draft.abort_attempt c l !! j = Some a ->
  Draft.aborted a = true.
Proof.
  intros H. rewrite list_lookup_alter. case_decide; subst.
  - destruct (l !! j); [|done]. by intros [= <-].
  - intros Ha. destruct (Draft.aborted a) eqn:E; [done|].
    by specialize (H j a Ha E).
Qed.

Lemma draft_request_alter c (l : list Draft.Attempt) :
  (forall j a, l !! j = Some a ->
     Draft.at_request a = Draft.build_request (Draft.at_options a) j) ->
  forall j a, alter Draft.abort_attempt c l !! j = Some a ->
    Draft.at_request a = Draft.build_request (Draft.at_options a) j.
Proof.
  intros H j a. rewrite list_lookup_alter. case_decide; [|apply H]. subst.
  destruct (l !! j) as [a0|] eqn:E; [|done]. intros [= <-]. cbn. by apply H.
Qed.

Lemma draft_Inv_connect wh o s :
  (forall c a, Draft.attempts s !! c = Some a -> Draft.aborted a = false ->
               Draft.controllerRef s = Some c) ->
  (forall c a, Draft.attempts s !! c = Some a ->
     Draft.at_request a = Draft.build_request (Draft.at_options a) c) ->
  Draft.effect_deps wh (Draft.props s)
    = Draft.effect_deps wh (Draft.effect_props s) ->
  Draft.effect_deps wh o = Draft.effect_deps wh (Draft.props s) ->
  Draft.Inv wh (Draft.connect o s).
Proof.
  intros I1 I2 I3 Ho. unfold Draft.connect.
  destruct (Draft.controllerRef s) as [c|] eqn:Hc; cbn.
  - split; [|split]; cbn; [| |done].
    + intros j a Ha E. apply lookup_app_Some in Ha as [Ha|[Hge Ha]].
      * rewrite (draft_abort_all (Draft.attempts s) c j a) in E;
          [done | | exact Ha].
        intros i x Hx Ex. specialize (I1 i x Hx Ex). congruence.
      * destruct (j - length (alter Draft.abort_attempt c (Draft.attempts s)))
          as [|n] eqn:En; [|done].
        injection Ha as <-. cbn. split; [f_equal; lia | done].
    + intros j a Ha. apply lookup_app_Some in Ha as [Ha|[Hge Ha]].
      * by apply (draft_request_alter c _ I2).
      * destruct (j - length (alter Draft.abort_attempt c (Draft.attempts s)))
          as [|n] eqn:En; [|done].
        injection Ha as <-. cbn. f_equal. lia.
  - split; [|split]; cbn; [| |done].
    + intros j a Ha E. apply lookup_app_Some in Ha as [Ha|[Hge Ha]].
      * specialize (I1 j a Ha E). congruence.
      * destruct (j - length (Draft.attempts s)) as [|n] eqn:En; [|done].
        injection Ha as <-. cbn. split; [f_equal; lia | done].
    + intros j a Ha. apply lookup_app_Some in Ha as [Ha|[Hge Ha]].
      * by apply I2.
      * destruct (j - length (Draft.attempts s)) as [|n] eqn:En; [|done].
        injection Ha as <-. cbn. f_equal. lia.
Qed.

(** After [close] no attempt can call back. *)
Lemma draft_close_all_aborted s :
  (forall c a, Draft.attempts s !! c = Some a -> Draft.aborted a = false ->
               Draft.controllerRef s = Some c) ->
  forall j a, Draft.attempts (Draft.close s) !! j = Some a ->
              Draft.aborted a = true.
Proof.
  intros I1 j a. unfold Draft.close.
  destruct (Draft.controllerRef s) as [c|] eqn:Hc; cbn.
  - apply (draft_abort_all (Draft.attempts s) c j a).
    intros i x Hx Ex. specialize (I1 i x Hx Ex). congruence.
  - intros Ha. destruct (Draft.aborted a) eqn:E; [done|].
    specialize (I1 j a Ha E). congruence.
Qed.

Lemma draft_close_request s :
  (forall c a, Draft.attempts s !! c = Some a ->
     Draft.at_request a = Draft.build_request (Draft.at_options a) c) ->
  forall c a, Draft.attempts (Draft.close s) !! c = Some a ->
    Draft.at_request a = Draft.build_request (Draft.at_options a) c.
Proof.
  intros I2. unfold Draft.close. destruct (Draft.controllerRef s); cbn;
    [by apply draft_request_alter | done].
Qed.

Lemma draft_close_keeps s :
  Draft.props (Draft.close s) = Draft.props s /\
  Draft.effect_props (Draft.close s) = Draft.effect_props s /\
  Draft.controllerRef (Draft.close s) = Draft.controllerRef s /\
  Draft.observed (Draft.close s) = Draft.observed s /\
  length (Draft.attempts (Draft.close s)) = length (Draft.attempts s).
Proof.
  unfold Draft.close. destruct (Draft.controllerRef s) eqn:E; cbn;
    rewrite ?E, ?length_alter; done.
Qed.

Lemma draft_Inv_close wh s : Draft.Inv wh s -> Draft.Inv wh (Draft.close s).
Proof.
  intros (I1 & I2 & I3).
  assert (I1' : forall c a, Draft.attempts s !! c = Some a ->
                  Draft.aborted a = false -> Draft.controllerRef s = Some c).
  { intros c a Ha E. by destruct (I1 c a Ha E). }
  destruct (draft_close_keeps s) as (Hp & He & _).
  split; [|split].
  - intros c a Ha E. by rewrite (draft_close_all_aborted s I1' c a Ha) in E.
  - by apply draft_close_request.
  - by rewrite Hp, He.
Qed.

Lemma draft_Inv_mount wh o : Draft.Inv wh (Draft.mount o).
Proof.
  apply draft_Inv_connect; cbn; try done; intros c a Ha;
    by rewrite lookup_nil in Ha.
Qed.

Lemma draft_callback_keeps c f s :
  (forall o x, Draft.attempts (f o x) = Draft.attempts x /\
               Draft.controllerRef (f o x) = Draft.controllerRef x /\
               Draft.props (f o x) = Draft.props x /\
               Draft.effect_props (f o x) = Draft.effect_props x) ->
  Draft.attempts (Draft.callback c f s) = Draft.attempts s /\
  Draft.controllerRef (Draft.callback c f s) = Draft.controllerRef s /\
  Draft.props (Draft.callback c f s) = Draft.props s /\
  Draft.effect_props (Draft.callback c f s) = Draft.effect_props s.
Proof.
  intros H. unfold Draft.callback. by destruct (Draft.attempts s !! c).
Qed.

Lemma draft_call_keeps h x s :
  Draft.attempts (Draft.call h x s) = Draft.attempts s /\
  Draft.controllerRef (Draft.call h x s) = Draft.controllerRef s /\
  Draft.props (Draft.call h x s) = Draft.props s /\
  Draft.effect_props (Draft.call h x s) = Draft.effect_props s.
Proof. by destruct h. Qed.

Lemma draft_Inv_same wh s s' :
  Draft.attempts s' = Draft.attempts s ->
  Draft.controllerRef s' = Draft.controllerRef s ->
  Draft.props s' = Draft.props s ->
  Draft.effect_props s' = Draft.effect_props s ->
  Draft.Inv wh s -> Draft.Inv wh s'.
Proof. unfold Draft.Inv. by intros -> -> -> ->. Qed.

Lemma draft_Inv_handle wh e s :
  Draft.Inv wh s -> Draft.Inv wh (Draft.handle wh e s).
Proof.
  intros H. pose proof H as (I1 & I2 & I3).
  assert (I1' : forall c a, Draft.attempts s !! c = Some a ->
                  Draft.aborted a = false -> Draft.controllerRef s = Some c).
  { intros c a Ha E. by destruct (I1 c a Ha E). }
  destruct e as [c r|c m|c err| | |o]; cbn [Draft.handle].
  - destruct (draft_callback_keeps c (fun o => Draft.onopen o r) s)
      as (A & B & C & D).
    { intros o x. exact (draft_call_keeps _ _ (Draft.setReadyState OPEN x)). }
    by apply (draft_Inv_same wh s).
  - destruct (draft_callback_keeps c (fun o => Draft.onmessage o m) s)
      as (A & B & C & D).
    { intros o x. exact (draft_call_keeps _ _ x). }
    by apply (draft_Inv_same wh s).
  - destruct (draft_callback_keeps c (fun o => Draft.onerror o err) s)
      as (A & B & C & D).
    { intros o x. exact (draft_call_keeps _ _ (Draft.setReadyState CLOSED x)). }
    by apply (draft_Inv_same wh s).
  - by apply draft_Inv_close.
  - by apply draft_Inv_connect.
  - unfold Draft.render. case_bool_decide as Hd.
    + cbn in Hd. split; [|split]; cbn; [|done|done].
      intros c a Ha E. destruct (I1 c a Ha E) as [Hc Hdeps].
      split; [done|]. congruence.
    + set (s1 := Draft.set_effect_props o (Draft.set_props o s)).
      destruct (draft_close_keeps s1) as (Hp & He & _).
      apply draft_Inv_connect.
      * intros c a Ha E.
        by rewrite (draft_close_all_aborted s1 I1' c a Ha) in E.
      * by apply draft_close_request.
      * by rewrite Hp, He.
      * by rewrite Hp.
Qed.

Lemma draft_Inv_reachable wh s : Draft.reachable wh s -> Draft.Inv wh s.
Proof.
  intros (o & es & Hs). pose proof (draft_Inv_mount wh o) as H0.
  revert H0 Hs. generalize (Draft.mount o). intros s0 H0 Hs.
  induction Hs; [done|]. by apply IHHs, draft_Inv_handle.
Qed.

(** ** One attempt, made for the latest render *)

(** In both drafts the attempt whose signal is not aborted is the current
    one and the only one that can call back, and its request is that of the
    latest render: same url, method (GET when absent or empty) and body,
    with its own controller as signal. *)
Theorem draft_live_attempt_is_of_latest_render wh s c a :
  Draft.reachable wh s ->
  Draft.attempts s !! c = Some a ->
  Draft.aborted a = false ->
  Draft.controllerRef s = Some c /\
  (forall c', Draft.live c' s = true -> c' = c) /\
  Draft.req_signal (Draft.at_request a) = c /\
  Draft.req_url (Draft.at_request a) = Draft.url (Draft.props s) /\
  Draft.req_method (Draft.at_request a)
    = Draft.method_or_GET (Draft.method (Draft.props s)) /\
  Draft.req_body (Draft.at_request a) = Draft.body (Draft.props s).
Proof.
  intros Hr Ha E. apply draft_Inv_reachable in Hr. destruct Hr as (I1 & I2 & _).
  destruct (I1 c a Ha E) as [Hc Hd]. rewrite (I2 c a Ha). cbn.
  unfold Draft.effect_deps in Hd. injection Hd as Hu _ Hm Hb _.
  split; [done|]. split.
  { intros c' Hl. unfold Draft.live in Hl.
    destruct (Draft.attempts s !! c') as [a'|] eqn:Ha'; [|discriminate].
    destruct (I1 c' a' Ha') as [Hc' _]; [by destruct (Draft.aborted a')|].
    congruence. }
  by rewrite Hu, Hm, Hb.
Qed.

Lemma draft_live_attempt_witness :
  Draft.reachable true
    (Draft.exec true [Draft.Render Draft.opts_b] (Draft.mount Draft.opts_a)) /\
  (exists a,
     Draft.attempts (Draft.exec true [Draft.Render Draft.opts_b]
                       (Draft.mount Draft.opts_a)) !! 1 = Some a /\
     Draft.aborted a = false /\
     Draft.req_method (Draft.at_request a) = "GET") /\
  Draft.controllerRef (Draft.exec true [Draft.Render Draft.opts_b]
                         (Draft.mount Draft.opts_a)) = Some 1.
Proof.
  assert (Hr : Draft.reachable true
                 (Draft.exec true [Draft.Render Draft.opts_b]
                    (Draft.mount Draft.opts_a))).
  { exists Draft.opts_a, [Draft.Render Draft.opts_b].
    apply draft_run_steps. vm_compute. reflexivity. }
  split; [exact Hr|].
  split; [eexists; repeat split; vm_compute; reflexivity|].
  exact (proj1 (draft_live_attempt_is_of_latest_render true _ 1 _ Hr
                  ltac:(vm_compute; reflexivity) eq_refl)).
Defined.

(** No request of the drafts has an empty method: an absent or empty
    [method] is sent as GET, any other as it is. *)
Theorem draft_request_method_never_empty wh s c a :
  Draft.reachable wh s ->
  Draft.attempts s !! c = Some a ->
  Draft.req_method (Draft.at_request a) <> "" /\
  Draft.req_method (Draft.at_request a) =
    match Draft.method (Draft.at_options a) with
    | None | Some "" => "GET"
    | Some m => m
    end.
Proof.
  intros Hr Ha. apply draft_Inv_reachable in Hr. destruct Hr as (_ & I2 & _).
  rewrite (I2 c a Ha). cbn.
  by destruct (Draft.method (Draft.at_options a)) as [[|x xs]|].
Qed.

Lemma draft_request_method_witness :
  Draft.reachable false (Draft.mount Draft.opts_a) /\
  (exists a, Draft.attempts (Draft.mount Draft.opts_a) !! 0 = Some a /\
             Draft.method (Draft.at_options a) = None /\
             Draft.req_method (Draft.at_request a) = "GET").
Proof.
  assert (Hr : Draft.reachable false (Draft.mount Draft.opts_a)).
  { exists Draft.opts_a, []. constructor. }
  split; [exact Hr|]. eexists. split; [vm_compute; reflexivity|].
  split; [reflexivity|].
  exact (proj2 (draft_request_method_never_empty false _ 0 _ Hr
                  ltac:(vm_compute; reflexivity))).
Defined.

(** ** Which observer is called *)

(** In the second draft, whose effect lists the observers as dependencies,
    a callback of the live attempt always goes to the observer of the
    latest render. *)
Theorem draft_second_calls_latest_observers s c r m err :
  Draft.reachable true s ->
  Draft.live c s = true ->
  Draft.observed (Draft.handle true (Draft.Open c r) s) =
    Draft.observed s ++
      match Draft.onOpen (Draft.props s) with
      | Some f => [(f, ObsOpen r)] | None => [] end /\
  Draft.observed (Draft.handle true (Draft.Message c m) s) =
    Draft.observed s ++
      match Draft.onMessage (Draft.props s) with
      | Some f => [(f, ObsMessage m)] | None => [] end /\
  Draft.observed (Draft.handle true (Draft.Error c err) s) =
    Draft.observed s ++
      match Draft.onError (Draft.props s) with
      | Some f => [(f, ObsError err)] | None => [] end.
Proof.
  intros Hr Hl. apply draft_Inv_reachable in Hr. destruct Hr as (I1 & _ & _).
  unfold Draft.live in Hl. cbn [Draft.handle]. unfold Draft.callback.
  destruct (Draft.attempts s !! c) as [a|] eqn:Ha; [|discriminate].
  destruct (I1 c a Ha) as [_ Hd]; [by destruct (Draft.aborted a)|].
  unfold Draft.effect_deps in Hd. injection Hd as _ _ _ _ Hm Ho He.
  unfold Draft.onopen, Draft.onmessage, Draft.onerror, Draft.call.
  rewrite Hm, Ho, He.
  destruct (Draft.onOpen (Draft.props s)), (Draft.onMessage (Draft.props s)),
    (Draft.onError (Draft.props s)); cbn; by rewrite ?app_nil_r.
Qed.

Lemma draft_second_calls_latest_witness :
  Draft.reachable true
    (Draft.exec true [Draft.Render Draft.opts_b] (Draft.mount Draft.opts_a)) /\
  Draft.live 1 (Draft.exec true [Draft.Render Draft.opts_b]
                  (Draft.mount Draft.opts_a)) = true /\
  Draft.observed
    (Draft.exec true [Draft.Render Draft.opts_b; Draft.Message 1 msg_with_id]
       (Draft.mount Draft.opts_a)) = [(11, ObsMessage msg_with_id)].
Proof.
  assert (Hr : Draft.reachable true
                 (Draft.exec true [Draft.Render Draft.opts_b]
                    (Draft.mount Draft.opts_a))).
  { exists Draft.opts_a, [Draft.Render Draft.opts_b].
    apply draft_run_steps. vm_compute. reflexivity. }
  assert (Hl : Draft.live 1 (Draft.exec true [Draft.Render Draft.opts_b]
                               (Draft.mount Draft.opts_a)) = true).
  { vm_compute. reflexivity. }
  pose proof (draft_second_calls_latest_observers _ 1 200 msg_with_id
                "offline" Hr Hl) as (_ & A & _).
  split; [exact Hr|]. split; [exact Hl|].
  vm_compute in A. vm_compute. exact A.
Defined.

(** In the first draft, whose effect does not list the observers, a render
    that changes only observers keeps the connection, and the callbacks of
    the running attempt keep going to the observers of the render that
    connected, not to those of the new render. *)
Theorem draft_first_keeps_observers_of_connect s c a o m :
  Draft.reachable false s ->
  Draft.attempts s !! c = Some a ->
  Draft.aborted a = false ->
  Draft.effect_deps false o = Draft.effect_deps false (Draft.props s) ->
  Draft.attempts (Draft.render false o s) = Draft.attempts s /\
  Draft.readyState (Draft.render false o s) = Draft.readyState s /\
  Draft.props (Draft.render false o s) = o /\
  Draft.observed (Draft.handle false (Draft.Message c m)
                    (Draft.render false o s)) =
    Draft.observed s ++
      match Draft.onMessage (Draft.at_options a) with
      | Some f => [(f, ObsMessage m)] | None => [] end.
Proof.
  intros Hr Ha E Hd. apply draft_Inv_reachable in Hr.
  destruct Hr as (_ & _ & I3).
  unfold Draft.render. rewrite bool_decide_eq_true_2 by (cbn; congruence).
  cbn. unfold Draft.callback. cbn. rewrite Ha.
  unfold Draft.onmessage, Draft.call.
  destruct (Draft.onMessage (Draft.at_options a)); cbn;
    by rewrite ?app_nil_r.
Qed.

Lemma draft_first_keeps_observers_witness :
  Draft.reachable false (Draft.mount Draft.opts_a) /\
  Draft.effect_deps false Draft.opts_b
    = Draft.effect_deps false (Draft.props (Draft.mount Draft.opts_a)) /\
  Draft.onMessage Draft.opts_b = Some 11 /\
  Draft.attempts (Draft.render false Draft.opts_b (Draft.mount Draft.opts_a))
    = Draft.attempts (Draft.mount Draft.opts_a) /\
  Draft.observed (Draft.handle false (Draft.Message 0 msg_with_id)
                    (Draft.render false Draft.opts_b
                       (Draft.mount Draft.opts_a)))
    = [(10, ObsMessage msg_with_id)].
Proof.
  assert (Hr : Draft.reachable false (Draft.mount Draft.opts_a)).
  { exists Draft.opts_a, []. constructor. }
  assert (Hd : Draft.effect_deps false Draft.opts_b
               = Draft.effect_deps false
                   (Draft.props (Draft.mount Draft.opts_a))).
  { vm_compute. reflexivity. }
  pose proof (draft_first_keeps_observers_of_connect
                (Draft.mount Draft.opts_a) 0 _ Draft.opts_b msg_with_id Hr
                ltac:(vm_compute; reflexivity) eq_refl Hd) as (A1 & _ & _ & A4).
  split; [exact Hr|]. split; [exact Hd|]. split; [reflexivity|].
  split; [exact A1|]. vm_compute in A4. vm_compute. exact A4.
Defined.

(** ** The drafts never reconnect on their own *)

Lemma draft_quiet_handle wh e s :
  Draft.quiet wh e s = true ->
  length (Draft.attempts (Draft.handle wh e s)) = length (Draft.attempts s) /\
  Draft.controllerRef (Draft.handle wh e s) = Draft.controllerRef s.
Proof.
  intros Hq. destruct e as [c r|c m|c err| | |o]; cbn [Draft.handle].
  - destruct (draft_callback_keeps c (fun o => Draft.onopen o r) s)
      as (-> & -> & _); [|done].
    intros o x. exact (draft_call_keeps _ _ (Draft.setReadyState OPEN x)).
  - destruct (draft_callback_keeps c (fun o => Draft.onmessage o m) s)
      as (-> & -> & _); [|done].
    intros o x. exact (draft_call_keeps _ _ x).
  - destruct (draft_callback_keeps c (fun o => Draft.onerror o err) s)
      as (-> & -> & _); [|done].
    intros o x. exact (draft_call_keeps _ _ (Draft.setReadyState CLOSED x)).
  - by destruct (draft_close_keeps s) as (_ & _ & -> & _ & ->).
  - discriminate.
  - unfold Draft.quiet in Hq. cbn in Hq.
    apply negb_true_iff, negb_false_iff in Hq.
    unfold Draft.render. cbn. by rewrite Hq.
Qed.

(** Whatever the transport reports, errors included, the drafts make no
    attempt of their own: until [reconnect()] is called or a render changes
    a dependency of the effect, the attempts and the current controller
    stay as they are. *)
Theorem draft_never_connects_by_itself wh s es s' :
  Draft.steps wh (Draft.quiet wh) s es s' ->
  length (Draft.attempts s') = length (Draft.attempts s) /\
  Draft.controllerRef s' = Draft.controllerRef s.
Proof.
  induction 1 as [s|s e es s' He Hq _ IH]; [done|].
  destruct (draft_quiet_handle wh e s Hq) as [A B].
  destruct IH as [A' B']. split; congruence.
Qed.

Lemma draft_never_connects_witness :
  Draft.steps false (Draft.quiet false) (Draft.mount Draft.opts_a)
    [Draft.Open 0 200; Draft.Error 0 "offline"; Draft.Render Draft.opts_b;
     Draft.Error 0 "offline"]
    (Draft.exec false
       [Draft.Open 0 200; Draft.Error 0 "offline"; Draft.Render Draft.opts_b;
        Draft.Error 0 "offline"] (Draft.mount Draft.opts_a)) /\
  length (Draft.attempts
            (Draft.exec false
               [Draft.Open 0 200; Draft.Error 0 "offline";
                Draft.Render Draft.opts_b; Draft.Error 0 "offline"]
               (Draft.mount Draft.opts_a))) = 1 /\
  Draft.readyState
    (Draft.exec false
       [Draft.Open 0 200; Draft.Error 0 "offline"; Draft.Render Draft.opts_b;
        Draft.Error 0 "offline"] (Draft.mount Draft.opts_a)) = CLOSED.
Proof.
  assert (Hs : Draft.steps false (Draft.quiet false) (Draft.mount Draft.opts_a)
                 [Draft.Open 0 200; Draft.Error 0 "offline";
                  Draft.Render Draft.opts_b; Draft.Error 0 "offline"]
                 (Draft.exec false
                    [Draft.Open 0 200; Draft.Error 0 "offline";
                     Draft.Render Draft.opts_b; Draft.Error 0 "offline"]
                    (Draft.mount Draft.opts_a))).
  { repeat (econstructor; [vm_compute; reflexivity | vm_compute; reflexivity |]).
    constructor. }
  pose proof (draft_never_connects_by_itself _ _ _ _ Hs) as [A _].
  split; [exact Hs|]. split; [exact A | vm_compute; reflexivity].
Defined.

(** ** [close()] in the drafts *)

Lemma draft_current_exists wh s :
  Draft.reachable wh s -> is_Some (Draft.controllerRef s).
Proof.
  intros (o & es & Hs).
  assert (Hc : forall o x, is_Some (Draft.controllerRef (Draft.connect o x))).
  { intros o' x. unfold Draft.connect. by destruct (Draft.controllerRef x). }
  pose proof (Hc o _ : is_Some (Draft.controllerRef (Draft.mount o))) as H0.
  revert H0 Hs. generalize (Draft.mount o). intros s0 H0 Hs.
  induction Hs as [s|s e es s' He _ _ IH]; [done|]. apply IH. clear IH.
  destruct e as [c r|c m|c err| | |o']; cbn [Draft.handle].
  - destruct (draft_callback_keeps c (fun o => Draft.onopen o r) s)
      as (_ & -> & _); [|done].
    intros o1 x. exact (draft_call_keeps _ _ (Draft.setReadyState OPEN x)).
  - destruct (draft_callback_keeps c (fun o => Draft.onmessage o m) s)
      as (_ & -> & _); [|done].
    intros o1 x. exact (draft_call_keeps _ _ x).
  - destruct (draft_callback_keeps c (fun o => Draft.onerror o err) s)
      as (_ & -> & _); [|done].
    intros o1 x. exact (draft_call_keeps _ _ (Draft.setReadyState CLOSED x)).
  - by destruct (draft_close_keeps s) as (_ & _ & -> & _).
  - apply Hc.
  - unfold Draft.render. case_bool_decide; [done | apply Hc].
Qed.

Lemma draft_all_aborted_handle wh e s :
  (forall c a, Draft.attempts s !! c = Some a -> Draft.aborted a = true) ->
  Draft.readyState s = CLOSED ->
  Draft.enabled e s = true -> Draft.quiet wh e s = true ->
  (forall c a, Draft.attempts (Draft.handle wh e s) !! c = Some a ->
               Draft.aborted a = true) /\
  Draft.readyState (Draft.handle wh e s) = CLOSED /\
  Draft.observed (Draft.handle wh e s) = Draft.observed s.
Proof.
  intros Hall Hc He Hq.
  assert (Hdead : forall c, Draft.live c s = false).
  { intros c. unfold Draft.live.
    destruct (Draft.attempts s !! c) as [a|] eqn:Ha; [|done].
    by rewrite (Hall c a Ha). }
  destruct e as [c r|c m|c err| | |o]; cbn in He;
    try (rewrite Hdead in He; discriminate); cbn [Draft.handle].
  - split; [|split].
    + apply draft_close_all_aborted. intros c a Ha E.
      by rewrite (Hall c a Ha) in E.
    + unfold Draft.close. by destruct (Draft.controllerRef s).
    + apply draft_close_keeps.
  - discriminate.
  - unfold Draft.quiet in Hq. cbn in Hq.
    apply negb_true_iff, negb_false_iff in Hq.
    unfold Draft.render. cbn. by rewrite Hq.
Qed.

(** [close()] is final until the next connect: it sets the state to CLOSED
    and aborts the current attempt, calling it again changes nothing, and
    until [reconnect()] is called or a render changes a dependency of the
    effect no callback is enabled, no observer is called and the state stays
    CLOSED. *)
Theorem draft_close_is_final_until_connect wh s es s' :
  Draft.reachable wh s ->
  Draft.steps wh (Draft.quiet wh) (Draft.close s) es s' ->
  Draft.readyState (Draft.close s) = CLOSED /\
  Draft.close (Draft.close s) = Draft.close s /\
  Draft.readyState s' = CLOSED /\
  Draft.observed s' = Draft.observed s /\
  (forall c, Draft.live c s' = false).
Proof.
  intros Hr Hs. destruct (draft_current_exists wh s Hr) as [c Hc].
  apply draft_Inv_reachable in Hr. destruct Hr as (I1 & _ & _).
  assert (Hall : forall j a, Draft.attempts (Draft.close s) !! j = Some a ->
                             Draft.aborted a = true).
  { apply draft_close_all_aborted. intros j a Ha E. by destruct (I1 j a Ha E). }
  assert (Hcl : Draft.readyState (Draft.close s) = CLOSED).
  { unfold Draft.close. by rewrite Hc. }
  assert (Ho : Draft.observed (Draft.close s) = Draft.observed s)
    by apply draft_close_keeps.
  split; [exact Hcl|]. split.
  { unfold Draft.close. rewrite Hc. cbn. rewrite Hc. cbn.
    by rewrite list_alter_alter_eq. }
  rewrite <- Ho. clear Ho Hc I1.
  revert Hall Hcl Hs. generalize (Draft.close s). intros u Hall Hcl Hs.
  revert Hall Hcl. induction Hs as [x|x e es s' He Hq _ IH]; intros Hall Hcl.
  - split; [done|]. split; [done|]. intros j. unfold Draft.live.
    destruct (Draft.attempts x !! j) as [a|] eqn:Ha; [|done].
    by rewrite (Hall j a Ha).
  - destruct (draft_all_aborted_handle wh e x Hall Hcl He Hq) as (A & B & C).
    destruct (IH A B) as (A' & B' & C'). split; [done|]. split; [congruence|done].
Qed.

Lemma draft_close_witness :
  Draft.reachable true (Draft.mount Draft.opts_a) /\
  Draft.steps true (Draft.quiet true) (Draft.close (Draft.mount Draft.opts_a))
    [Draft.CallClose; Draft.Render Draft.opts_a]
    (Draft.exec true [Draft.CallClose; Draft.Render Draft.opts_a]
       (Draft.close (Draft.mount Draft.opts_a))) /\
  Draft.readyState (Draft.close (Draft.mount Draft.opts_a)) = CLOSED /\
  Draft.enabled (Draft.Message 0 msg_with_id)
    (Draft.close (Draft.mount Draft.opts_a)) = false.
Proof.
  assert (Hr : Draft.reachable true (Draft.mount Draft.opts_a)).
  { exists Draft.opts_a, []. constructor. }
  assert (Hs : Draft.steps true (Draft.quiet true)
                 (Draft.close (Draft.mount Draft.opts_a))
                 [Draft.CallClose; Draft.Render Draft.opts_a]
                 (Draft.exec true [Draft.CallClose; Draft.Render Draft.opts_a]
                    (Draft.close (Draft.mount Draft.opts_a)))).
  { repeat (econstructor; [vm_compute; reflexivity | vm_compute; reflexivity |]).
    constructor. }
  pose proof (draft_close_is_final_until_connect _ _ _ _ Hr Hs) as (A & _).
  split; [exact Hr|]. split; [exact Hs|]. split; [exact A|].
  vm_compute. reflexivity.
Defined.
